(** * The planner pipeline of [agent/src]: state, configuration and graph

    A shallow embedding of [agent/src/state.py], [agent/src/config.py] and
    [agent/src/graph.py].

    Python objects that the code mutates in place (the state record, the
    [inputs] mapping, the sequences stored in the state) live in a store of
    cells and are handled through references, so that two names for one
    object see each other's writes.  Code with effects runs in a monad that
    threads the store and a trace of observable events, and that can raise:
    as in Python, a raised exception does not undo the writes made before
    it. *)

From Stdlib Require Import QArith.
From stdpp Require Import gmap strings list fin_maps.

Close Scope Q_scope.

Open Scope string_scope.
Open Scope list_scope.
Set Warnings "-register-all".

(** ** Python values and the store *)

(** JSON-like trees: what the body of an HTTP response decodes to and what
    an instance of a schema class holds.  A tree is a description; the
    Python dicts and lists built from one are objects of the store (see
    [alloc_data]). *)
Inductive data :=
| DNull
| DBool (b : bool)
| DNum (n : Z)
| DStr (s : string)
| DList (xs : list data)
| DDict (kvs : list (string * data)).

(** A reference into the store is an index into it. *)
Abbreviation loc := nat (only parsing).

Inductive value :=
| VNone
| VBool (b : bool)
| VNum (n : Z)
| VStr (s : string)
| VRef (l : loc)                            (* a dict or a list of the store *)
| VMsg (content : string)                   (* the chat model's raw message *)
| VModel (fields : list (string * data)).   (* an instance of a schema class *)

Inductive cell :=
| CDict (d : gmap string value)
| CList (xs : list value).

(** The keyword arguments handed to the chat client. *)
Inductive kwarg :=
| KStr (s : string)
| KFloat (q : Q)
| KDict (d : gmap string string).

Record ChatOpenAI := { llm_kwargs : gmap string kwarg }.

Inductive exn :=
| KeyError (k : string)
| TypeError
| AttributeError
| ValueError
| ValidationError (field : string)
| GraphRecursionError
| Exception (cls msg : string).   (* raised by a library or a backend *)

Inductive event :=
| EvHttpGet (url : string)
| EvModelCall (llm : ChatOpenAI) (prompt : string)
| EvLog (msg : string)
| EvLogAnswer (result : value)
| EvPrint (msg : string)
| EvPrintData (d : data).

Record world := { heap : list cell; trace : list event }.

Inductive outcome (A : Type) :=
| Ok (a : A)
| Raise (e : exn).
Arguments Ok {A} a.
Arguments Raise {A} e.

(** ** The effect monad *)

Definition M (A : Type) : Type := world -> outcome A * world.

Definition ret {A} (a : A) : M A := fun w => (Ok a, w).
Definition raise {A} (e : exn) : M A := fun w => (Raise e, w).
Definition bind {A B} (m : M A) (k : A -> M B) : M B :=
  fun w => match m w with
           | (Ok a, w') => k a w'
           | (Raise e, w') => (Raise e, w')
           end.
Definition lift {A} (o : outcome A) : M A := fun w => (o, w).

Notation "'let*' x ':=' c1 'in' c2" := (bind c1 (fun x => c2))
  (at level 10, x binder, c1 at level 100, c2 at level 200,
   format "'let*'  x  ':='  c1  'in' '//' c2").
Notation "c1 '>>' c2" := (bind c1 (fun _ => c2))
  (at level 100, c2 at level 200, right associativity, only parsing).

Definition emit (e : event) : M unit :=
  fun w => (Ok tt, {| heap := heap w; trace := trace w ++ [e] |}).

Definition get_world : M world := fun w => (Ok w, w).

(** Number of model calls and HTTP requests made so far: the answers of the
    outside world may differ from one call to the next. *)
Definition is_model_call (e : event) : bool :=
  match e with EvModelCall _ _ => true | _ => false end.
Definition is_http_get (e : event) : bool :=
  match e with EvHttpGet _ => true | _ => false end.
Definition is_network (e : event) : bool := is_model_call e || is_http_get e.
Definition network_calls (w : world) : list event := filter is_network (trace w).

(** ** Operations on the store *)

Fixpoint assoc {A} (k : string) (kvs : list (string * A)) : option A :=
  match kvs with
  | [] => None
  | (k', a) :: rest => if String.eqb k k' then Some a else assoc k rest
  end.

(** A new object gets the next free reference. *)
Definition alloc (c : cell) : M value :=
  fun w => (Ok (VRef (length (heap w))),
            {| heap := heap w ++ [c]; trace := trace w |}).

Definition store (l : loc) (c : cell) : M unit :=
  fun w => (Ok tt, {| heap := <[l := c]> (heap w); trace := trace w |}).

(** [o[k]] *)
Definition getitem (o : value) (k : string) : M value :=
  fun w =>
    match o with
    | VRef l =>
        match heap w !! l with
        | Some (CDict d) =>
            match d !! k with
            | Some v => (Ok v, w)
            | None => (Raise (KeyError k), w)
            end
        | _ => (Raise TypeError, w)
        end
    | _ => (Raise TypeError, w)
    end.

(** [o[k] = v], on a dict of the store. *)
Definition setitem (o : value) (k : string) (v : value) : M unit :=
  fun w =>
    match o with
    | VRef l =>
        match heap w !! l with
        | Some (CDict d) => store l (CDict (<[k := v]> d)) w
        | _ => (Raise TypeError, w)
        end
    | _ => (Raise TypeError, w)
    end.

(** [o.append(v)]: only a list has the method. *)
Definition append (o : value) (v : value) : M unit :=
  fun w =>
    match o with
    | VRef l =>
        match heap w !! l with
        | Some (CList xs) => store l (CList (xs ++ [v])) w
        | _ => (Raise AttributeError, w)
        end
    | _ => (Raise AttributeError, w)
    end.

(** Reading a field of a record held in the store, and the object the field
    refers to. *)
Definition field (h : list cell) (o : value) (k : string) : option value :=
  match o with
  | VRef l => match h !! l with
              | Some (CDict d) => d !! k
              | _ => None
              end
  | _ => None
  end.

Definition deref (h : list cell) (v : value) : option cell :=
  match v with
  | VRef l => h !! l
  | _ => None
  end.

(** What an observer of the record sees at field [k]: the value bound to it
    and, when that value is a reference, the content of the object. *)
Definition view (h : list cell) (o : value) (k : string)
  : option (value * option cell) :=
  match field h o k with
  | Some v => Some (v, deref h v)
  | None => None
  end.

(** [h'] extends [h]: every object of [h] is still there, unmodified. *)
Definition extends (h h' : list cell) : Prop :=
  ∀ l c, h !! l = Some c → h' !! l = Some c.

(** ** Small Python built-ins *)

Definition nl : string := String (Ascii.ascii_of_nat 10) EmptyString.
Definition dq : string := String (Ascii.ascii_of_nat 34) EmptyString.

(** [sep.join(parts)] *)
Definition join (sep : string) (parts : list string) : string :=
  String.concat sep parts.

(** Truthiness of a string and of an optional string. *)
Definition truthy (s : string) : bool :=
  match s with EmptyString => false | _ => true end.
Definition truthy_opt (o : option string) : bool :=
  match o with Some s => truthy s | None => false end.

(** [d[k]] on a decoded JSON value. *)
Definition data_getitem (d : data) (k : string) : outcome data :=
  match d with
  | DDict kvs => match assoc k kvs with
                 | Some v => Ok v
                 | None => Raise (KeyError k)
                 end
  | _ => Raise TypeError
  end.

Fixpoint chars (s : string) : list string :=
  match s with
  | EmptyString => []
  | String c rest => String c EmptyString :: chars rest
  end.

(** What a [for] loop visits: the items of a list, the characters of a
    string, the keys of a dict; anything else is not iterable. *)
Definition py_iter (d : data) : outcome (list data) :=
  match d with
  | DList xs => Ok xs
  | DStr s => Ok (DStr <$> chars s)
  | DDict kvs => Ok ((λ kv, DStr kv.1) <$> kvs)
  | _ => Raise TypeError
  end.

Definition mapM {A B} (f : A -> M B) : list A -> M (list B) :=
  fix go (xs : list A) : M (list B) :=
    match xs with
    | [] => ret []
    | x :: rest =>
        let* y := f x in
        let* ys := go rest in
        ret (y :: ys)
    end.

(** The Python value a tree describes: each list and each dict of the tree
    becomes a new object of the store, the children before their parent. *)
Fixpoint alloc_data (d : data) : M value :=
  match d with
  | DNull => ret VNone
  | DBool b => ret (VBool b)
  | DNum n => ret (VNum n)
  | DStr s => ret (VStr s)
  | DList xs =>
      let* vs := mapM alloc_data xs in
      alloc (CList vs)
  | DDict kvs =>
      let* vs := mapM (λ '(k, d), let* v := alloc_data d in ret (k, v)) kvs in
      alloc (CDict (list_to_map vs))
  end.

(** ** What the code gets from outside

    The libraries and the two modules of the package that are not part of
    the sources at hand ([enums], [prompts]).  The answers of the network
    may depend on how many requests were made before. *)

Inductive schema := Schema (cls : string).

Class Externals := {
  (* requests, json, str() of a non-string *)
  requests_get : string -> nat -> outcome string;
  json_loads : string -> outcome data;
  str_of : data -> string;
  (* langchain: template rendering, chat call, schema-driven parsing *)
  prompt_format : string -> list cell -> gmap string value -> outcome string;
  chat_completion : ChatOpenAI -> nat -> string -> outcome string;
  get_format_instructions : schema -> string;
  pydantic_parse : schema -> string -> outcome (list (string * data));
  (* enums.ModelNames: the members as (name, value), in declaration order *)
  ModelNames_members : list (string * string);
  (* prompts *)
  GOAL_DECOMP_NODE_PROMPT : string;
  TASK_DECOMP_NODE_PROMPT : string;
  GoalDecompNodeParser : schema;
  TaskDecompNodeParser : schema;
  make_goal_decomp_node_inputs : value -> M value;
  make_task_decomp_node_inputs : value -> M value;
}.

(** ** config.py *)

Module config.

Record PathsConfig := { output_dir : string; prompt_dir : string }.

Record NodeConfig := {
  model_name : string;
  prompt_cache_key : option string;
}.

Record RunnerConfig := {
  goal_decomp_node : NodeConfig;
  task_decomp_node : NodeConfig;
}.

Record RobotSkillConfig := { name : string; skills : list string }.

Record Config := {
  paths : PathsConfig;
  runner : RunnerConfig;
  skills_ : list RobotSkillConfig;
}.

Definition config : Config :=
  {| paths := {| output_dir := "output/"; prompt_dir := "src/graph/prompts/" |};
     runner :=
       {| goal_decomp_node :=
            {| model_name := "gpt41mini";
               prompt_cache_key := Some "goal_decomp_node" |};
          task_decomp_node :=
            {| model_name := "gpt41mini";
               prompt_cache_key := Some "task_decomp_node" |} |};
     skills_ :=
       [ {| name := "robot1";
            skills := ["GoToObject"; "PickObject"; "PlaceObject"] |} ] |}.

(** *** Validation of raw data against the declared fields

    Each class is a pydantic model.  A model built from a mapping looks at
    the keys the mapping has beyond the declared ones according to its own
    [model_config]: with [extra="forbid"] such a key is a validation error,
    and a class that sets no [model_config] has pydantic's default, under
    which the key is dropped without a word.  The setting of a class does
    not reach the classes of its fields. *)

Inductive extra := forbid | ignore.

Definition undeclared (declared : list string) (kvs : list (string * data))
  : list string :=
  filter (λ k, negb (existsb (String.eqb k) declared)) (kvs.*1).

Definition check_extra (policy : extra) (declared : list string)
    (kvs : list (string * data)) : outcome unit :=
  match policy, undeclared declared kvs with
  | forbid, k :: _ => Raise (ValidationError k)
  | _, _ => Ok tt
  end.

Definition mapping (d : data) : outcome (list (string * data)) :=
  match d with
  | DDict kvs => Ok kvs
  | _ => Raise (ValidationError EmptyString)
  end.

Definition obind {A B} (o : outcome A) (k : A -> outcome B) : outcome B :=
  match o with Ok a => k a | Raise e => Raise e end.

Notation "'let!' x ':=' c1 'in' c2" := (obind c1 (fun x => c2))
  (at level 10, x binder, c1 at level 100, c2 at level 200).

Definition required (k : string) (kvs : list (string * data)) : outcome data :=
  match assoc k kvs with
  | Some d => Ok d
  | None => Raise (ValidationError k)
  end.

Definition as_str (k : string) (d : data) : outcome string :=
  match d with DStr s => Ok s | _ => Raise (ValidationError k) end.

Fixpoint all_ok {A B} (f : A -> outcome B) (xs : list A) : outcome (list B) :=
  match xs with
  | [] => Ok []
  | x :: rest =>
      let! y := f x in
      let! ys := all_ok f rest in
      Ok (y :: ys)
  end.

Definition as_list {B} (k : string) (f : data -> outcome B) (d : data)
  : outcome (list B) :=
  match d with
  | DList xs => all_ok f xs
  | _ => Raise (ValidationError k)
  end.

Definition validate_PathsConfig (d : data) : outcome PathsConfig :=
  let! kvs := mapping d in
  let! _ := check_extra forbid ["output_dir"; "prompt_dir"] kvs in
  let! o := required "output_dir" kvs in
  let! o := as_str "output_dir" o in
  let! p := required "prompt_dir" kvs in
  let! p := as_str "prompt_dir" p in
  Ok {| output_dir := o; prompt_dir := p |}.

Definition validate_NodeConfig (d : data) : outcome NodeConfig :=
  let! kvs := mapping d in
  let! _ := check_extra forbid ["model_name"; "prompt_cache_key"] kvs in
  let! m := required "model_name" kvs in
  let! m := as_str "model_name" m in
  let! c := match assoc "prompt_cache_key" kvs with
             | None | Some DNull => Ok None
             | Some (DStr s) => Ok (Some s)
             | Some _ => Raise (ValidationError "prompt_cache_key")
             end in
  Ok {| model_name := m; prompt_cache_key := c |}.

Definition validate_RunnerConfig (d : data) : outcome RunnerConfig :=
  let! kvs := mapping d in
  let! _ := check_extra forbid ["goal_decomp_node"; "task_decomp_node"] kvs in
  let! g := required "goal_decomp_node" kvs in
  let! g := validate_NodeConfig g in
  let! t := required "task_decomp_node" kvs in
  let! t := validate_NodeConfig t in
  Ok {| goal_decomp_node := g; task_decomp_node := t |}.

(** [RobotSkillConfig] declares no [model_config]. *)
Definition validate_RobotSkillConfig (d : data) : outcome RobotSkillConfig :=
  let! kvs := mapping d in
  let! _ := check_extra ignore ["name"; "skills"] kvs in
  let! n := required "name" kvs in
  let! n := as_str "name" n in
  let! s := required "skills" kvs in
  let! s := as_list "skills" (as_str "skills") s in
  Ok {| name := n; skills := s |}.

Definition validate_Config (d : data) : outcome Config :=
  let! kvs := mapping d in
  let! _ := check_extra forbid ["paths"; "runner"; "skills"] kvs in
  let! p := required "paths" kvs in
  let! p := validate_PathsConfig p in
  let! r := required "runner" kvs in
  let! r := validate_RunnerConfig r in
  let! s := required "skills" kvs in
  let! s := as_list "skills" validate_RobotSkillConfig s in
  Ok {| paths := p; runner := r; skills_ := s |}.

End config.

(** ** state.py *)

Module state.
Import config.

Section with_externals.
Context `{Externals}.

(** One request to the simulator; the body comes back or the call raises. *)
Definition http_get (url : string) : M string :=
  fun w =>
    let w' := {| heap := heap w; trace := trace w ++ [EvHttpGet url] |} in
    (requests_get url (length (network_calls w)), w').

Definition py_str (d : data) : string :=
  match d with DStr s => s | _ => str_of d end.

Definition make_object_text (url : string) : M string :=
  let* response := http_get (url +:+ "/env") in
  let* all := lift (json_loads response) in
  let* objects := lift (data_getitem all "objects") in
  emit (EvPrintData objects) >>
  let total_object_text := "{{" +:+ nl in
  let* items := lift (py_iter objects) in
  let total_object_text :=
    fold_left
      (λ total obj,
         let object_text :=
           dq +:+ "object_name" +:+ dq +:+ ": " +:+ dq +:+ py_str obj +:+ dq +:+ "," +:+ nl in
         total +:+ object_text)
      items total_object_text in
  let total_object_text := total_object_text +:+ "}}" in
  ret total_object_text.

(** [robot_skill.skills[-1]]; only looked at while the loop runs, that is
    on a list that has a last item. *)
Definition last_skill (robot_skill : RobotSkillConfig) : string :=
  List.last (skills robot_skill) EmptyString.

Definition skill_line (robot_skill : RobotSkillConfig) : string :=
  let skill_text := "from " +:+ name robot_skill +:+ ".skills import " in
  fold_left
    (λ skill_text skill,
       let skill_text := skill_text +:+ skill in
       if negb (String.eqb skill (last_skill robot_skill))
       then skill_text +:+ ", "
       else skill_text)
    (skills robot_skill) skill_text.

Definition make_skill_text (config_skills : list RobotSkillConfig) : string :=
  let skill_text_list := skill_line <$> config_skills in
  join nl skill_text_list.

Definition _make_base_state : M value :=
  let* user_queries := alloc (CList []) in
  let* inputs := alloc (CDict ∅) in
  let* subgoals := alloc (CList []) in
  let* tasks := alloc (CList []) in
  alloc (CDict (list_to_map
    [("user_queries", user_queries); ("inputs", inputs);
     ("subgoals", subgoals); ("tasks", tasks)])).

Definition _make_inputs (config : Config) (url : string) : M value :=
  let* inputs := alloc (CDict ∅) in
  emit (EvPrint "Making inputs for state...") >>
  let* object_text := make_object_text url in
  setitem inputs "object_text" (VStr object_text) >>
  setitem inputs "skill_text" (VStr (make_skill_text (skills_ config))) >>
  emit (EvPrint ("url: " +:+ url)) >>
  ret inputs.

(** [copy.deepcopy]: containers of the store are copied into new objects,
    level by level; everything else is immutable and shared.  The copy keeps
    no table of the objects already copied: an object reached twice is
    copied twice, and a cyclic structure exhausts the depth. *)
Fixpoint deepcopy (depth : nat) (v : value) : M value :=
  match v with
  | VRef l =>
      match depth with
      | 0 => raise (Exception "RecursionError" EmptyString)
      | S depth =>
          let* w := get_world in
          match heap w !! l with
          | Some (CList xs) =>
              let* ys := mapM (deepcopy depth) xs in
              alloc (CList ys)
          | Some (CDict d) =>
              let* kvs := mapM (λ kv, let* v' := deepcopy depth kv.2 in
                                      ret (kv.1, v'))
                               (map_to_list d) in
              alloc (CDict (list_to_map kvs))
          | None => raise TypeError
          end
      end
  | _ => ret v
  end.

Definition recursion_limit : nat := 1000.

Definition make_state (user_query : string) (config : Config)
    (url : option string) : M value :=
  let* base_state := _make_base_state in
  let resolved_url :=
    if truthy_opt url then default EmptyString url else "http://127.0.0.1:8800" in
  let* state := deepcopy recursion_limit base_state in
  let* user_queries := alloc (CList [VStr user_query]) in
  setitem state "user_queries" user_queries >>
  let* inputs := _make_inputs config resolved_url in
  setitem state "inputs" inputs >>
  ret state.

End with_externals.
End state.

(** ** graph.py *)

Module graph.
Import config.

(** A member of the [ModelNames] enumeration. *)
Record ModelNames := { _name_ : string; _value_ : string }.

Inductive parser :=
| PydanticOutputParser (pydantic_object : schema)
| StrOutputParser.

Definition isinstance_PydanticOutputParser (p : option parser) : bool :=
  match p with Some (PydanticOutputParser _) => true | _ => false end.

Definition StateCallable := value -> M value.

(** *** The graph library

    [StateGraph], its [compile] and the compiled graph's [invoke] belong to
    a third-party package.  The builder records what it is told; [compile]
    and [invoke] do what the specification asks of the graph builder and of
    the pipeline runner. *)

Record StateGraph := {
  nodes : list (string * StateCallable);
  edges : list (string * string);
}.

Definition START : string := "__start__".
Definition END : string := "__end__".

Definition new_StateGraph : StateGraph := {| nodes := []; edges := [] |}.

Definition add_node (name : string) (fn : StateCallable) (g : StateGraph)
  : StateGraph :=
  {| nodes := nodes g ++ [(name, fn)]; edges := edges g |}.

Definition add_edge (src dst : string) (g : StateGraph) : StateGraph :=
  {| nodes := nodes g; edges := edges g ++ [(src, dst)] |}.

Definition declared (g : StateGraph) (n : string) : bool :=
  existsb (String.eqb n) ((nodes g).*1).

Definition successors (es : list (string * string)) (n : string) : list string :=
  (List.filter (λ e, String.eqb e.1 n) es).*2.

(** [dst] is reached from [src] by a path of one to [fuel] edges. *)
Fixpoint reach (fuel : nat) (es : list (string * string)) (src dst : string)
  : bool :=
  match fuel with
  | 0 => false
  | S fuel =>
      existsb (λ n, String.eqb n dst || reach fuel es n dst) (successors es src)
  end.

Definition acyclic (g : StateGraph) : bool :=
  forallb (λ n, negb (reach (length (edges g)) (edges g) n n)) ((nodes g).*1).

Definition all_reach_END (g : StateGraph) : bool :=
  forallb (λ n, reach (length (edges g)) (edges g) n END) ((nodes g).*1).

Definition endpoints_declared (g : StateGraph) : bool :=
  forallb (λ e, (String.eqb e.1 START || declared g e.1)
                && (String.eqb e.2 END || declared g e.2)) (edges g).

Definition GraphIntegrityError : exn := Exception "GraphIntegrityError" EmptyString.

(** Modelled from the spec: the graph builder's [compile] (section 4.3),
    which is the graph library's and not in the sources: every endpoint is
    a declared node or a sentinel, exactly one edge leaves [START], the
    graph has no cycle and every node reaches [END]. *)
Definition compile (g : StateGraph) : outcome StateGraph :=
  if endpoints_declared g
     && Nat.eqb (length (successors (edges g) START)) 1
     && acyclic g && all_reach_END g
  then Ok g
  else Raise GraphIntegrityError.

(** Modelled from the spec: the pipeline runner (section 4.4), which is the
    compiled graph's [invoke] and not in the sources: from the successor of
    [START], each node is called with the current state and its return
    value becomes the current state, until the edge to [END]; a node's
    error ends the run.  [limit] bounds the number of steps. *)
Fixpoint walk (limit : nat) (g : StateGraph) (cur : string) (state : value)
  : M value :=
  match limit with
  | 0 => raise GraphRecursionError
  | S limit =>
      match successors (edges g) cur with
      | [] => raise GraphIntegrityError
      | next :: _ =>
          if String.eqb next END then ret state
          else match assoc next (nodes g) with
               | None => raise GraphIntegrityError
               | Some fn => let* state := fn state in walk limit g next state
               end
      end
  end.

Definition recursion_limit : nat := 25.

Definition invoke (g : StateGraph) (state : value) : M value :=
  walk recursion_limit g START state.

Section with_externals.
Context `{Externals}.

(** *** [enums.ModelNames]: lookup by value and by name

    [ModelNames(v)] is the first member declared with value [v], or a
    [ValueError]; [ModelNames[n]] is the member declared under the name
    [n], a later name of an already used value standing for the first
    member with that value, or a [KeyError]. *)
Definition ModelNames_by_value (v : string) : outcome ModelNames :=
  match List.find (λ m, String.eqb m.2 v) ModelNames_members with
  | Some m => Ok {| _name_ := m.1; _value_ := m.2 |}
  | None => Raise ValueError
  end.

Definition ModelNames_by_name (n : string) : outcome ModelNames :=
  match List.find (λ m, String.eqb m.1 n) ModelNames_members with
  | Some m => ModelNames_by_value m.2
  | None => Raise (KeyError n)
  end.

Definition dict_truthy {A} (d : gmap string A) : bool :=
  negb (bool_decide (d = ∅)).

Definition create_llm (model_name : ModelNames) (temperature : option Q)
    (prompt_cache_key : option string) : ChatOpenAI :=
  let extra_body : option (gmap string string) := None in
  let extra_body :=
    if truthy_opt prompt_cache_key
    then Some {[ "prompt_cache_key" := default EmptyString prompt_cache_key ]}
    else extra_body in
  let llm_kwargs : gmap string kwarg := {[ "model" := KStr (_value_ model_name) ]} in
  let llm_kwargs :=
    match temperature with
    | Some t => <["temperature" := KFloat t]> llm_kwargs
    | None => llm_kwargs
    end in
  let llm_kwargs :=
    match extra_body with
    | Some d => if dict_truthy d then <["extra_body" := KDict d]> llm_kwargs
                else llm_kwargs
    | None => llm_kwargs
    end in
  {| llm_kwargs := llm_kwargs |}.

(** One call of the chat model. *)
Definition chat (llm : ChatOpenAI) (text : string) : M string :=
  fun w =>
    let w' := {| heap := heap w; trace := trace w ++ [EvModelCall llm text] |} in
    (chat_completion llm (length (network_calls w)) text, w').

(** What [make_llm_node] fixes when the node is built: the parser and the
    format instructions. *)
Definition build_parser (parser_output : option schema) (skip_parser : bool)
  : option parser * string :=
  let parser : option parser := None in
  let format_instructions := EmptyString in
  if negb skip_parser then
    match parser_output with
    | Some sch => (Some (PydanticOutputParser sch), get_format_instructions sch)
    | None => (Some StrOutputParser, format_instructions)
    end
  else (parser, format_instructions).

(** [chain.invoke(inputs)], with [chain = prompt | llm] followed by the
    parser when there is one.  The mapping is read, never written. *)
Definition chain_invoke (prompt_text : string) (llm : ChatOpenAI)
    (parser : option parser) (inputs : value) : M value :=
  let* w := get_world in
  let* d := match deref (heap w) inputs with
            | Some (CDict d) => ret d
            | _ => raise TypeError
            end in
  let* text := lift (prompt_format prompt_text (heap w) d) in
  let* message := chat llm text in
  match parser with
  | None => ret (VMsg message)
  | Some StrOutputParser => ret (VStr message)
  | Some (PydanticOutputParser sch) =>
      let* fields := lift (pydantic_parse sch message) in
      ret (VModel fields)
  end.

(** [result.model_dump()]: a new dict, with new containers inside. *)
Definition model_dump (result : value) : M value :=
  match result with
  | VModel fields => alloc_data (DDict fields)
  | _ => raise AttributeError
  end.

(** The banner logged on entry, and the world once it is logged. *)
Definition banner (node_name : string) : string :=
  "============= " +:+ node_name +:+ " ==============".

Definition logged (node_name : string) (w : world) : world :=
  {| heap := heap w; trace := trace w ++ [EvLog (banner node_name)] |}.

(** [if format_instructions: inputs["format_instructions"] = ...] *)
Definition inject (format_instructions : string) (inputs : value) : M unit :=
  if truthy format_instructions
  then setitem inputs "format_instructions" (VStr format_instructions)
  else ret tt.

(** The node up to its result: log, assemble the inputs, inject the format
    instructions, call the chain, dump a structured result. *)
Definition run_chain (llm : ChatOpenAI) (prompt_text : string)
    (make_inputs : StateCallable) (parser : option parser)
    (format_instructions : string) (node_name : string) (state : value)
  : M value :=
  emit (EvLog (banner node_name)) >>
  let* inputs := make_inputs state in
  inject format_instructions inputs >>
  let* result := chain_invoke prompt_text llm parser inputs in
  if isinstance_PydanticOutputParser parser then model_dump result
  else ret result.

(** The merge of the result into the state. *)
Definition commit (state_append : bool) (state : value) (state_key : string)
    (result : value) : M unit :=
  if state_append
  then let* seq := getitem state state_key in append seq result
  else setitem state state_key result.

Definition report (printout : bool) (result : value) : M unit :=
  if printout then emit (EvLogAnswer result) else ret tt.

Definition make_llm_node (llm : ChatOpenAI) (prompt_text : string)
    (make_inputs : StateCallable) (parser_output : option schema)
    (state_key : string) (state_append : bool) (node_name : string)
    (printout : bool) (skip_parser : bool) : StateCallable :=
  let parser := (build_parser parser_output skip_parser).1 in
  let format_instructions := (build_parser parser_output skip_parser).2 in
  let node (state : value) : M value :=
    let* result :=
      run_chain llm prompt_text make_inputs parser format_instructions
        node_name state in
    commit state_append state state_key result >>
    report printout result >>
    ret state in
  node.

Definition _resolve_model_enum (model_name : ModelNames + string)
  : outcome ModelNames :=
  match model_name with
  | inl m => Ok m
  | inr s =>
      match ModelNames_by_value s with
      | Raise ValueError => ModelNames_by_name s
      | r => r
      end
  end.

Definition goal_node (goal_llm : ChatOpenAI) : StateCallable :=
  make_llm_node goal_llm GOAL_DECOMP_NODE_PROMPT make_goal_decomp_node_inputs
    (Some GoalDecompNodeParser) "subgoals" false "GOAL_DECOMP_NODE" true false.

Definition task_node (task_llm : ChatOpenAI) : StateCallable :=
  make_llm_node task_llm TASK_DECOMP_NODE_PROMPT make_task_decomp_node_inputs
    (Some TaskDecompNodeParser) "tasks" false "TASK_DECOMP_NODE" true false.

Definition create_graph (config : Config) : M StateGraph :=
  let* goal_model :=
    lift (_resolve_model_enum (inr (model_name (goal_decomp_node (runner config))))) in
  let goal_llm :=
    create_llm goal_model None (prompt_cache_key (goal_decomp_node (runner config))) in
  let* task_model :=
    lift (_resolve_model_enum (inr (model_name (task_decomp_node (runner config))))) in
  let task_llm :=
    create_llm task_model None (prompt_cache_key (task_decomp_node (runner config))) in
  let workflow := new_StateGraph in
  let workflow := add_node "goal_decomp" (goal_node goal_llm) workflow in
  let workflow := add_node "task_decomp" (task_node task_llm) workflow in
  let workflow := add_edge START "goal_decomp" workflow in
  let workflow := add_edge "goal_decomp" "task_decomp" workflow in
  let workflow := add_edge "task_decomp" END workflow in
  lift (compile workflow).

End with_externals.
End graph.

(** * The vocabulary of the statements *)

Import config state graph.
Open Scope nat_scope.

Section vocabulary.
Context `{Externals}.

(** What the loop adds for one skill: the skill, followed by the separator
    unless it equals the final skill. *)
Definition piece (final skill : string) : string :=
  if negb (String.eqb skill final) then skill +:+ ", " else skill.

Definition cat (parts : list string) : string :=
  fold_right String.append EmptyString parts.

(** The expected line: the prefix and the skills joined by [", "]. *)
Definition joined_line (r : RobotSkillConfig) : string :=
  "from " +:+ name r +:+ ".skills import " +:+ join ", " (skills r).

(** A computation that only adds objects to the store: it returns, every
    object that existed is unchanged, and the trace is as it was. *)
Definition allocates {A} (m : M A) : Prop :=
  ∀ w, ∃ a w', m w = (Ok a, w') ∧ extends (heap w) (heap w')
               ∧ trace w' = trace w.

(** [make_inputs] builds its mapping without touching what is already in
    the store [h]: whatever it returns, every object of [h] is unchanged,
    and the mapping it returns is a new object. *)
Definition assembles_on (make_inputs : StateCallable) (state : value)
    (h : list cell) : Prop :=
  ∀ w r w', heap w = h → make_inputs state w = (r, w') →
    extends h (heap w')
    ∧ ∀ v, r = Ok v → ∃ li, v = VRef li ∧ length h ≤ li.

(** [make_inputs] does not itself write into the store [h]. *)
Definition reads_only_on (make_inputs : StateCallable) (state : value)
    (h : list cell) : Prop :=
  ∀ w r w', heap w = h → make_inputs state w = (r, w') → extends h (heap w').

Definition assembles (make_inputs : StateCallable) : Prop :=
  ∀ state h, assembles_on make_inputs state h.

(** What is left of a node once its inputs are assembled and, when there
    are format instructions, completed. *)
Definition after_inputs (llm : ChatOpenAI) (prompt_text : string)
    (parser : option parser) (state_key : string) (state_append : bool)
    (printout : bool) (state inputs : value) : M value :=
  let* result :=
    (let* result := chain_invoke prompt_text llm parser inputs in
     if isinstance_PydanticOutputParser parser then model_dump result
     else ret result) in
  commit state_append state state_key result >>
  report printout result >>
  ret state.

(** The plan [create_graph] declares, given the two clients. *)
Definition plan (goal_llm task_llm : ChatOpenAI) : StateGraph :=
  {| nodes := [("goal_decomp", goal_node goal_llm);
               ("task_decomp", task_node task_llm)];
     edges := [(START, "goal_decomp");
               ("goal_decomp", "task_decomp");
               ("task_decomp", END)] |}.

Definition goal_llm_of (cfg : Config) (m : ModelNames) : ChatOpenAI :=
  create_llm m None (prompt_cache_key (goal_decomp_node (runner cfg))).
Definition task_llm_of (cfg : Config) (m : ModelNames) : ChatOpenAI :=
  create_llm m None (prompt_cache_key (task_decomp_node (runner cfg))).

(** The text [make_object_text] builds from the items of the inventory. *)
Definition object_text_of (items : list data) : string :=
  fold_left
    (λ total obj,
       total +:+ (dq +:+ "object_name" +:+ dq +:+ ": " +:+ dq +:+ py_str obj
                  +:+ dq +:+ "," +:+ nl))
    items ("{{" +:+ nl) +:+ "}}".

Definition resolved_url (url : option string) : string :=
  if truthy_opt url then default EmptyString url else "http://127.0.0.1:8800".

Definition record (user_queries inputs subgoals tasks : value)
  : gmap string value :=
  list_to_map [("user_queries", user_queries); ("inputs", inputs);
               ("subgoals", subgoals); ("tasks", tasks)].

(** The objects [make_state] adds to a store of [n] objects. *)
Definition new_cells (n : nat) (user_query : string) (items : list data)
    (cfg : Config) : list cell :=
  [ CList []; CDict ∅; CList []; CList [];
    CDict (record (VRef (n + 0)) (VRef (n + 1)) (VRef (n + 2)) (VRef (n + 3)));
    CList []; CList []; CDict ∅; CList [];
    CDict (<["inputs" := VRef (n + 11)]>
             (<["user_queries" := VRef (n + 10)]>
                (record (VRef (n + 6)) (VRef (n + 7)) (VRef (n + 5))
                   (VRef (n + 8)))));
    CList [VStr user_query];
    CDict (<["skill_text" := VStr (make_skill_text (skills_ cfg))]>
             (<["object_text" := VStr (object_text_of items)]> ∅)) ].

Definition new_events (url : string) (objects : data) : list event :=
  [ EvPrint "Making inputs for state..."; EvHttpGet (url +:+ "/env");
    EvPrintData objects; EvPrint ("url: " +:+ url) ].

(** The mapping with exactly the declared fields of a configuration. *)
Definition dump_PathsConfig (p : PathsConfig) : data :=
  DDict [("output_dir", DStr (output_dir p)); ("prompt_dir", DStr (prompt_dir p))].

Definition dump_NodeConfig (n : NodeConfig) : data :=
  DDict [("model_name", DStr (model_name n));
         ("prompt_cache_key",
          match prompt_cache_key n with Some s => DStr s | None => DNull end)].

Definition dump_RunnerConfig (r : RunnerConfig) : data :=
  DDict [("goal_decomp_node", dump_NodeConfig (goal_decomp_node r));
         ("task_decomp_node", dump_NodeConfig (task_decomp_node r))].

Definition dump_RobotSkillConfig (r : RobotSkillConfig) : data :=
  DDict [("name", DStr (name r)); ("skills", DList (DStr <$> skills r))].

Definition dump_Config (c : Config) : data :=
  DDict [("paths", dump_PathsConfig (paths c));
         ("runner", dump_RunnerConfig (runner c));
         ("skills", DList (dump_RobotSkillConfig <$> skills_ c))].

(** The line [make_object_text] writes for one item of the inventory. *)
Definition object_line (obj : data) : string :=
  dq +:+ "object_name" +:+ dq +:+ ": " +:+ dq +:+ py_str obj +:+ dq +:+ ","
  +:+ nl.

(** The world after one request to [url]. *)
Definition requested (url : string) (w : world) : world :=
  {| heap := heap w; trace := trace w ++ [EvHttpGet url] |}.

(** The error class the specification names for an unresolvable model
    identifier.  The package defines no such class; an error of that class
    would be a library-style exception carrying a message. *)
Definition UnknownModelError (msg : string) : exn :=
  Exception "UnknownModelError" msg.

(** The world after one call of the chat model with the prompt [text]. *)
Definition called (llm : ChatOpenAI) (text : string) (w : world) : world :=
  {| heap := heap w; trace := trace w ++ [EvModelCall llm text] |}.


End vocabulary.

(** ** A concrete outside world, for running the code on examples *)

Module demo.
Import config graph.

Definition members : list (string * string) :=
  [("gpt41mini", "gpt-4.1-mini"); ("gpt4o", "gpt-4o")].

(** An input-assembly function that builds a new mapping from what it
    reads in the state. *)
Definition fresh_inputs (state : value) : M value :=
  let* queries := getitem state "user_queries" in
  alloc (CDict {[ "user_queries" := queries ]}).

(** An input-assembly function that hands out the state's own [inputs]
    mapping. *)
Definition shared_inputs (state : value) : M value :=
  getitem state "inputs".

Definition env_body : data :=
  DDict [("objects", DList [DStr "red_block"; DStr "table"])].

Definition ext : Externals :=
  {| requests_get := λ _ _, Ok "body";
     json_loads := λ _, Ok env_body;
     str_of := λ _, EmptyString;
     prompt_format := λ text _ _, Ok text;
     chat_completion := λ _ _ _, Ok "answer";
     get_format_instructions := λ '(Schema cls), "Return JSON for " +:+ cls;
     pydantic_parse := λ _ message, Ok [("items", DList [DStr message])];
     ModelNames_members := members;
     GOAL_DECOMP_NODE_PROMPT := "goal prompt";
     TASK_DECOMP_NODE_PROMPT := "task prompt";
     GoalDecompNodeParser := Schema "GoalDecompNodeParser";
     TaskDecompNodeParser := Schema "TaskDecompNodeParser";
     make_goal_decomp_node_inputs := fresh_inputs;
     make_task_decomp_node_inputs := fresh_inputs |}.

(** The same world with the model backend out of reach. *)
Definition ext_down : Externals :=
  {| requests_get := λ _ _, Ok "body";
     json_loads := λ _, Ok env_body;
     str_of := λ _, EmptyString;
     prompt_format := λ text _ _, Ok text;
     chat_completion := λ _ _ _, Raise (Exception "APIConnectionError" EmptyString);
     get_format_instructions := λ '(Schema cls), "Return JSON for " +:+ cls;
     pydantic_parse := λ _ message, Ok [("items", DList [DStr message])];
     ModelNames_members := members;
     GOAL_DECOMP_NODE_PROMPT := "goal prompt";
     TASK_DECOMP_NODE_PROMPT := "task prompt";
     GoalDecompNodeParser := Schema "GoalDecompNodeParser";
     TaskDecompNodeParser := Schema "TaskDecompNodeParser";
     make_goal_decomp_node_inputs := fresh_inputs;
     make_task_decomp_node_inputs := fresh_inputs |}.

Definition llm : ChatOpenAI :=
  @create_llm {| _name_ := "gpt41mini"; _value_ := "gpt-4.1-mini" |} None None.

(** A store holding one state record, as [make_state] lays it out:
    the four containers at 0..3 and the record at 4. *)
Definition state0 : value := VRef 4.
Definition record0 : gmap string value :=
  list_to_map [("user_queries", VRef 0); ("inputs", VRef 1);
               ("subgoals", VRef 2); ("tasks", VRef 3)].
Definition heap0 : list cell :=
  [ CList [VStr "pick up the red block"];
    CDict {[ "object_text" := VStr "objects"; "skill_text" := VStr "skills" ]};
    CList [];
    CList [];
    CDict record0 ].
Definition world0 : world := {| heap := heap0; trace := [] |}.

End demo.

(** ** The inputs of the examples *)

Definition robot_with_extra_field : data :=
  DDict [("name", DStr "robot1");
         ("skills", DList [DStr "GoToObject"]);
         ("firmware", DStr "v2")].

Definition node_with_extra_field : data :=
  DDict [("model_name", DStr "gpt41mini"); ("firmware", DStr "v2")].

Definition node_data : data := DDict [("model_name", DStr "gpt41mini")].

Definition config_with_extra_robot_field : data :=
  DDict [("paths", DDict [("output_dir", DStr "output/");
                          ("prompt_dir", DStr "src/graph/prompts/")]);
         ("runner", DDict [("goal_decomp_node", node_data);
                           ("task_decomp_node", node_data)]);
         ("skills", DList [robot_with_extra_field])].

Definition two_robots : list RobotSkillConfig :=
  [ {| name := "robot1"; skills := ["GoToObject"; "PickObject"; "PlaceObject"] |};
    {| name := "robot2"; skills := ["GoToObject"] |} ].

Definition inputs_of_state0 : gmap string value :=
  {[ "user_queries" := VRef 0 ]}.

Definition world_after_call : world :=
  {| heap := demo.heap0
             ++ [CDict (<["format_instructions"
                          := VStr "Return JSON for GoalDecompNodeParser"]>
                        inputs_of_state0)];
     trace := [EvLog (banner "GOAL_DECOMP_NODE");
               EvModelCall demo.llm "goal prompt"] |}.

(** The same once the parsed answer is dumped: its list, then its dict. *)
Definition world_after_dump : world :=
  {| heap := heap world_after_call
             ++ [CList [VStr "answer"]; CDict {[ "items" := VRef 6 ]}];
     trace := trace world_after_call |}.

Definition world_after_plain_call : world :=
  {| heap := demo.heap0 ++ [CDict inputs_of_state0];
     trace := [EvLog (banner "NOTE"); EvModelCall demo.llm "prompt"] |}.

Definition demo_model : ModelNames :=
  {| _name_ := "gpt41mini"; _value_ := "gpt-4.1-mini" |}.

Definition demo_graph : StateGraph :=
  @plan demo.ext (goal_llm_of config.config demo_model)
    (task_llm_of config.config demo_model).

(** The world left by the goal node alone, and by a whole run. *)
Definition world_after_goal : world :=
  Eval vm_compute in
    (@make_llm_node demo.ext demo.llm "goal prompt" demo.fresh_inputs
       (Some (Schema "GoalDecompNodeParser")) "subgoals" false
       "GOAL_DECOMP_NODE" true false demo.state0 demo.world0).2.

Definition world_after_run : world :=
  Eval vm_compute in (invoke demo_graph demo.state0 demo.world0).2.

Definition inputs_cell0 : cell :=
  CDict {[ "object_text" := VStr "objects"; "skill_text" := VStr "skills" ]}.

(** The outside world of [demo.ext] with another answer of the simulator:
    the outcome of the request and what its body decodes to. *)
Definition ext_with (answer : outcome string) (decoded : outcome data)
  : Externals :=
  {| requests_get := λ _ _, answer;
     json_loads := λ _, decoded;
     str_of := @str_of demo.ext;
     prompt_format := @prompt_format demo.ext;
     chat_completion := @chat_completion demo.ext;
     get_format_instructions := @get_format_instructions demo.ext;
     pydantic_parse := @pydantic_parse demo.ext;
     ModelNames_members := demo.members;
     GOAL_DECOMP_NODE_PROMPT := "goal prompt";
     TASK_DECOMP_NODE_PROMPT := "task prompt";
     GoalDecompNodeParser := Schema "GoalDecompNodeParser";
     TaskDecompNodeParser := Schema "TaskDecompNodeParser";
     make_goal_decomp_node_inputs := demo.fresh_inputs;
     make_task_decomp_node_inputs := demo.fresh_inputs |}.

(** The world once [demo.fresh_inputs] has built its mapping for a node
    named [node_name], and the same with the format instructions of the
    goal schema written into the mapping. *)
Definition world_with_inputs (node_name : string) : world :=
  {| heap := demo.heap0 ++ [CDict inputs_of_state0];
     trace := [EvLog (banner node_name)] |}.


(** * Properties *)

(** ** The model client factory *)

Section client_factory.
Context `{Externals}.

Lemma dict_truthy_singleton {A} (k : string) (a : A) :
  dict_truthy ({[ k := a ]} : gmap string A) = true.
Proof.
  unfold dict_truthy. rewrite bool_decide_eq_false_2; [done|].
  apply map_non_empty_singleton.
Qed.

(** C10: [create_llm] gives the client no [extra_body] when the cache key is
    absent, builds the very same client for the empty string as for an
    absent key, and passes [extra_body = {"prompt_cache_key": key}] exactly
    for a key of at least one character. *)
Theorem create_llm_cache_key (model : ModelNames) (temperature : option Q) :
  llm_kwargs (create_llm model temperature None) !! "extra_body" = None
  ∧ create_llm model temperature (Some EmptyString) = create_llm model temperature None
  ∧ ∀ c rest,
      llm_kwargs (create_llm model temperature (Some (String c rest)))
        !! "extra_body"
      = Some (KDict {[ "prompt_cache_key" := String c rest ]}).
Proof.
  split_and!.
  - unfold create_llm; destruct temperature; by simplify_map_eq.
  - reflexivity.
  - intros c rest. unfold create_llm. cbn [truthy_opt truthy default].
    rewrite dict_truthy_singleton. by simplify_map_eq.
Qed.

(** *** Resolution of a model identifier *)

Lemma find_none_not_elem {A} (f : A -> bool) (xs : list A) :
  List.find f xs = None ↔ ∀ x, x ∈ xs → f x = false.
Proof.
  induction xs as [|x xs IH]; simpl.
  - split; [intros _ x Hx; by apply elem_of_nil in Hx | done].
  - destruct (f x) eqn:Hfx.
    + split; [done|]. intros Hall.
      assert (f x = false) by (apply Hall, elem_of_cons; by left).
      congruence.
    + rewrite IH. split.
      * intros Hall y Hy. apply elem_of_cons in Hy as [->|Hy]; auto.
      * intros Hall y Hy. apply Hall, elem_of_cons. by right.
Qed.

Lemma by_value_unknown (s : string) :
  s ∉ ModelNames_members.*2 → ModelNames_by_value s = Raise ValueError.
Proof.
  intros Hs. unfold ModelNames_by_value.
  destruct (List.find _ _) as [m|] eqn:Hfind; [|done].
  apply find_some in Hfind as [Hin Heq].
  apply String.eqb_eq in Heq. subst s.
  destruct Hs. apply list_elem_of_fmap. exists m. split; [done|].
  by apply list_elem_of_In.
Qed.

Lemma by_name_unknown (s : string) :
  s ∉ ModelNames_members.*1 → ModelNames_by_name s = Raise (KeyError s).
Proof.
  intros Hs. unfold ModelNames_by_name.
  destruct (List.find _ _) as [m|] eqn:Hfind; [|done].
  apply find_some in Hfind as [Hin Heq].
  apply String.eqb_eq in Heq. subst s.
  destruct Hs. apply list_elem_of_fmap. exists m. split; [done|].
  by apply list_elem_of_In.
Qed.

Lemma by_value_known (s : string) :
  s ∈ ModelNames_members.*2 →
  ∃ m, ModelNames_by_value s = Ok m ∧ _value_ m = s
       ∧ (_name_ m, _value_ m) ∈ ModelNames_members.
Proof.
  intros Hs. unfold ModelNames_by_value.
  destruct (List.find _ _) as [m|] eqn:Hfind.
  - apply find_some in Hfind as [Hin Heq]. apply String.eqb_eq in Heq.
    exists {| _name_ := m.1; _value_ := m.2 |}. simpl. split_and!; [done..|].
    apply list_elem_of_In. by destruct m.
  - apply list_elem_of_fmap in Hs as (m & -> & Hm).
    rewrite find_none_not_elem in Hfind. specialize (Hfind m Hm).
    simpl in Hfind. by rewrite String.eqb_refl in Hfind.
Qed.

Lemma by_name_known (s : string) :
  s ∈ ModelNames_members.*1 →
  ∃ m, ModelNames_by_name s = Ok m
       ∧ (s, _value_ m) ∈ ModelNames_members
       ∧ (_name_ m, _value_ m) ∈ ModelNames_members.
Proof.
  intros Hs. unfold ModelNames_by_name.
  destruct (List.find _ _) as [m|] eqn:Hfind.
  - apply find_some in Hfind as [Hin Heq]. apply String.eqb_eq in Heq.
    destruct m as [n v]; simpl in *. subst n.
    apply list_elem_of_In in Hin.
    destruct (by_value_known v) as (m & Hm & Hv & Hmem).
    { apply list_elem_of_fmap. by exists (s, v). }
    exists m. rewrite Hv in Hmem |- *. by split_and!.
  - apply list_elem_of_fmap in Hs as (m & -> & Hm).
    rewrite find_none_not_elem in Hfind. specialize (Hfind m Hm).
    simpl in Hfind. by rewrite String.eqb_refl in Hfind.
Qed.

End client_factory.

Section model_resolution.
Context `{Externals}.

(** C3, as the code has it: an identifier that is neither the value nor the
    name of a member of the enumeration is refused with a [KeyError]
    carrying the identifier: the by-value lookup fails with a [ValueError]
    that is caught, and the by-name lookup raises the [KeyError], which
    nothing catches.  [create_graph] ends with that error in the world it
    started from, so without any request to the network.  An identifier
    that is the value of a member resolves to a member with that value,
    and one that is only a name resolves to the member declared under that
    name. *)
Theorem resolve_model_enum_cases (s : string) :
  (s ∉ ModelNames_members.*2 → s ∉ ModelNames_members.*1 →
     _resolve_model_enum (inr s) = Raise (KeyError s)
     ∧ (∀ cfg w, model_name (goal_decomp_node (runner cfg)) = s →
          create_graph cfg w = (Raise (KeyError s), w))
     ∧ (∀ cfg w m, _resolve_model_enum
                     (inr (model_name (goal_decomp_node (runner cfg)))) = Ok m →
          model_name (task_decomp_node (runner cfg)) = s →
          create_graph cfg w = (Raise (KeyError s), w)))
  ∧ (s ∈ ModelNames_members.*2 →
     ∃ m, _resolve_model_enum (inr s) = Ok m ∧ _value_ m = s
          ∧ (_name_ m, _value_ m) ∈ ModelNames_members)
  ∧ (s ∉ ModelNames_members.*2 → s ∈ ModelNames_members.*1 →
     ∃ m, _resolve_model_enum (inr s) = Ok m
          ∧ (s, _value_ m) ∈ ModelNames_members
          ∧ (_name_ m, _value_ m) ∈ ModelNames_members).
Proof.
  split_and!.
  - intros Hv Hn.
    assert (Hres : _resolve_model_enum (inr s) = Raise (KeyError s)).
    { unfold _resolve_model_enum.
      by rewrite (by_value_unknown s Hv), (by_name_unknown s Hn). }
    split_and!; [done| |].
    + intros cfg w Hs. unfold create_graph, bind, lift. by rewrite Hs, Hres.
    + intros cfg w m Hgoal Hs. unfold create_graph, bind, lift.
      by rewrite Hgoal, Hs, Hres.
  - intros Hv. destruct (by_value_known s Hv) as (m & Hm & Hval & Hmem).
    exists m. unfold _resolve_model_enum. by rewrite Hm.
  - intros Hv Hn. destruct (by_name_known s Hn) as (m & Hm & Hdecl & Hmem).
    exists m. unfold _resolve_model_enum.
    by rewrite (by_value_unknown s Hv), Hm.
Qed.

End model_resolution.

Lemma resolve_model_enum_examples :
  @_resolve_model_enum demo.ext (inr "not-a-real-model")
    = Raise (KeyError "not-a-real-model")
  ∧ (∃ m, @_resolve_model_enum demo.ext (inr "gpt-4.1-mini") = Ok m
          ∧ _value_ m = "gpt-4.1-mini")
  ∧ (∃ m, @_resolve_model_enum demo.ext (inr "gpt41mini") = Ok m
          ∧ ("gpt41mini", _value_ m) ∈ demo.members).
Proof.
  split_and!.
  - apply (@resolve_model_enum_cases demo.ext "not-a-real-model");
      compute_done.
  - destruct (proj1 (proj2 (@resolve_model_enum_cases demo.ext "gpt-4.1-mini")))
      as (m & Hm & Hv & _); [compute_done|].
    by exists m.
  - destruct (proj2 (proj2 (@resolve_model_enum_cases demo.ext "gpt41mini")))
      as (m & Hm & Hv & _); [compute_done..|].
    by exists m.
Defined.

(** C3, as stated, fails on the class of the error: for the identifier
    [not-a-real-model], which is neither a value nor a name, resolution and
    [create_graph] end with [KeyError('not-a-real-model')], the error of the
    by-name lookup, and with no [UnknownModelError] whatever its message. *)
Lemma unknown_model_is_key_error :
  @_resolve_model_enum demo.ext (inr "not-a-real-model")
  = Raise (KeyError "not-a-real-model")
  ∧ (∀ msg, @_resolve_model_enum demo.ext (inr "not-a-real-model")
            ≠ Raise (UnknownModelError msg))
  ∧ (∀ msg,
       @create_graph demo.ext
         {| paths := paths config.config;
            runner := {| goal_decomp_node :=
                           {| model_name := "not-a-real-model";
                              prompt_cache_key := None |};
                         task_decomp_node :=
                           task_decomp_node (runner config.config) |};
            skills_ := skills_ config.config |}
         demo.world0
       ≠ (Raise (UnknownModelError msg), demo.world0)).
Proof.
  split_and!; [reflexivity | intros msg; discriminate | intros msg; discriminate].
Qed.

(** ** Configuration *)

Lemma check_extra_forbid (declared : list string) (kvs : list (string * data))
    (k : string) :
  k ∈ kvs.*1 → k ∉ declared →
  ∃ k', check_extra forbid declared kvs = Raise (ValidationError k').
Proof.
  intros Hk Hnot. unfold check_extra.
  destruct (undeclared declared kvs) as [|k' rest] eqn:Hund; [|by eexists].
  exfalso. assert (Hin : k ∈ undeclared declared kvs).
  { unfold undeclared. apply list_elem_of_filter. split; [|done].
    apply Is_true_true, negb_true_iff.
    destruct (existsb _ _) eqn:Hex; [|done].
    apply existsb_exists in Hex as (d & Hd & Heq).
    apply String.eqb_eq in Heq. subst d. destruct Hnot.
    by apply list_elem_of_In. }
  rewrite Hund in Hin. by apply elem_of_nil in Hin.
Qed.

(** X14: The four classes that set [extra="forbid"] refuse a mapping with a key
    they do not declare. *)
Lemma strict_classes_reject (kvs : list (string * data)) (k : string) :
  k ∈ kvs.*1 →
  (k ∉ ["output_dir"; "prompt_dir"] →
     ∃ k', validate_PathsConfig (DDict kvs) = Raise (ValidationError k'))
  ∧ (k ∉ ["model_name"; "prompt_cache_key"] →
     ∃ k', validate_NodeConfig (DDict kvs) = Raise (ValidationError k'))
  ∧ (k ∉ ["goal_decomp_node"; "task_decomp_node"] →
     ∃ k', validate_RunnerConfig (DDict kvs) = Raise (ValidationError k'))
  ∧ (k ∉ ["paths"; "runner"; "skills"] →
     ∃ k', validate_Config (DDict kvs) = Raise (ValidationError k')).
Proof.
  intros Hk.
  split_and!; intros Hnot;
    destruct (check_extra_forbid _ kvs k Hk Hnot) as [k' Hk'];
    exists k';
    unfold validate_PathsConfig, validate_NodeConfig, validate_RunnerConfig,
      validate_Config, mapping; cbn [obind]; by rewrite Hk'.
Qed.

(** C6: [RobotSkillConfig] sets no [model_config]: a robot entry with a
    field the class does not declare is accepted, the field being dropped,
    also inside a [Config]; the same field on a [NodeConfig] is refused. *)
Theorem RobotSkillConfig_accepts_undeclared_field :
  validate_RobotSkillConfig robot_with_extra_field
    = Ok {| name := "robot1"; skills := ["GoToObject"] |}
  ∧ (∃ cfg, validate_Config config_with_extra_robot_field = Ok cfg
            ∧ skills_ cfg = [ {| name := "robot1"; skills := ["GoToObject"] |} ])
  ∧ validate_NodeConfig node_with_extra_field
      = Raise (ValidationError "firmware").
Proof.
  split_and!; [reflexivity | eexists; split; reflexivity | reflexivity].
Qed.

(** ** The skill listing *)

Section skill_text.

Lemma append_assoc (a b c : string) : (a +:+ b) +:+ c = a +:+ (b +:+ c).
Proof.
  induction a as [|ch a IH]; [done|].
  change (String ch ((a +:+ b) +:+ c) = String ch (a +:+ (b +:+ c))).
  by rewrite IH.
Qed.

Lemma append_nil_r (a : string) : a +:+ EmptyString = a.
Proof.
  induction a as [|ch a IH]; [done|].
  change (String ch (a +:+ EmptyString) = String ch a). by rewrite IH.
Qed.

Lemma skill_loop_pieces (final : string) (ss : list string) (acc : string) :
  fold_left
    (λ skill_text skill,
       let skill_text := skill_text +:+ skill in
       if negb (String.eqb skill final) then skill_text +:+ ", " else skill_text)
    ss acc
  = acc +:+ cat (piece final <$> ss).
Proof.
  revert acc. induction ss as [|s ss IH]; intros acc.
  - cbn [fold_left fmap list_fmap cat fold_right]. by rewrite append_nil_r.
  - rewrite fmap_cons. cbn [fold_left cat fold_right]. rewrite IH.
    unfold piece, cat.
    destruct (negb (String.eqb s final)); by rewrite !append_assoc.
Qed.

Lemma join_cons_snoc (sep x : string) (init : list string) (final : string) :
  join sep (x :: init ++ [final]) = x +:+ sep +:+ join sep (init ++ [final]).
Proof. unfold join. by destruct init. Qed.

Lemma pieces_join (final : string) (init : list string) :
  final ∉ init →
  cat (piece final <$> (init ++ [final])) = join ", " (init ++ [final]).
Proof.
  induction init as [|x init IH]; intros Hnot.
  - simpl. unfold piece. by rewrite String.eqb_refl, append_nil_r.
  - apply not_elem_of_cons in Hnot as [Hne Hnot].
    rewrite <- app_comm_cons, join_cons_snoc, <- (IH Hnot).
    rewrite fmap_cons. simpl. unfold piece at 1.
    assert (String.eqb x final = false) as -> by (apply String.eqb_neq; congruence).
    simpl. by rewrite append_assoc.
Qed.

Lemma skill_line_pieces (r : RobotSkillConfig) :
  skill_line r
  = ("from " +:+ name r +:+ ".skills import ")
      +:+ cat (piece (last_skill r) <$> skills r).
Proof. unfold skill_line. apply skill_loop_pieces. Qed.

Lemma skill_line_joined (r : RobotSkillConfig) :
  skills r ≠ [] →
  (∀ i s, skills r !! i = Some s → S i < length (skills r) → s ≠ last_skill r) →
  skill_line r = joined_line r.
Proof.
  intros Hne Hearlier. rewrite skill_line_pieces. unfold joined_line, last_skill in *.
  destruct (skills r) as [|final init _] using rev_ind; [done|].
  rewrite last_last in *.
  rewrite pieces_join, !append_assoc; [done|].
  intros Hin. apply list_elem_of_lookup in Hin as [i Hi].
  apply (Hearlier i final); [|rewrite length_app; simpl|done].
  - by apply lookup_app_l_Some.
  - apply lookup_lt_Some in Hi. lia.
Qed.

(** C9: when every robot has at least one skill and none of a robot's
    earlier skills equals its final one, the text is one line per robot,
    ['from {name}.skills import '] followed by the skills joined by [', '],
    the lines joined by newlines.  In general a line is the prefix followed
    by the skills in order, each with [', '] after it unless it equals the
    final skill: an earlier skill equal to the final one gets no separator
    after it. *)
Theorem make_skill_text_lines (config_skills : list RobotSkillConfig) :
  ((∀ r, r ∈ config_skills →
      skills r ≠ []
      ∧ ∀ i s, skills r !! i = Some s → S i < length (skills r) →
               s ≠ last_skill r) →
   make_skill_text config_skills = join nl (joined_line <$> config_skills))
  ∧ make_skill_text config_skills
    = join nl ((λ r, ("from " +:+ name r +:+ ".skills import ")
                       +:+ cat (piece (last_skill r) <$> skills r))
               <$> config_skills)
  ∧ (∀ final skill, skill = final → piece final skill = skill)
  ∧ (∀ final skill, skill ≠ final → piece final skill = skill +:+ ", ").
Proof.
  split_and!.
  - intros Hall. unfold make_skill_text. f_equal.
    apply list_fmap_ext. intros i r Hr.
    destruct (Hall r) as [Hne Hearlier]; [by eapply list_elem_of_lookup_2|].
    by apply skill_line_joined.
  - unfold make_skill_text. f_equal.
    apply list_fmap_ext. intros i r _. apply skill_line_pieces.
  - intros final skill ->. unfold piece. by rewrite String.eqb_refl.
  - intros final skill Hne. unfold piece.
    by apply String.eqb_neq in Hne as ->.
Qed.

End skill_text.

Lemma make_skill_text_two_robots :
  make_skill_text two_robots
  = "from robot1.skills import GoToObject, PickObject, PlaceObject" +:+ nl
    +:+ "from robot2.skills import GoToObject".
Proof.
  rewrite (proj1 (make_skill_text_lines two_robots)); [reflexivity|].
  intros r Hr. apply list_elem_of_In in Hr. simpl in Hr.
  destruct Hr as [<-|[<-|[]]]; (split; [simpl; discriminate|]); intros i s Hs Hlt;
    unfold last_skill; simpl in *.
  - destruct i as [|[|i]]; cbn in Hs; [by simplify_eq..|lia].
  - lia.
Defined.

(** An earlier skill equal to the final one loses its separator. *)
Example make_skill_text_repeated_final :
  make_skill_text [ {| name := "r"; skills := ["Pick"; "Place"; "Pick"] |} ]
  = "from r.skills import PickPlace, Pick".
Proof. reflexivity. Qed.

(** ** The store: what each operation writes *)

Section store_facts.

Lemma bind_ok_inv {A B} (m : M A) (k : A -> M B) w b w' :
  bind m k w = (Ok b, w') → ∃ a w1, m w = (Ok a, w1) ∧ k a w1 = (Ok b, w').
Proof.
  unfold bind. destruct (m w) as [[a|e] w1]; [eauto | discriminate].
Qed.

Lemma bind_raise_inv {A B} (m : M A) (k : A -> M B) w e w' :
  bind m k w = (Raise e, w') →
  m w = (Raise e, w') ∨ ∃ a w1, m w = (Ok a, w1) ∧ k a w1 = (Raise e, w').
Proof.
  unfold bind. destruct (m w) as [[a|e1] w1]; [eauto | left; congruence].
Qed.

Lemma bind_ok {A B} (m : M A) (k : A -> M B) w a w1 :
  m w = (Ok a, w1) → bind m k w = k a w1.
Proof. intros Hm. unfold bind. by rewrite Hm. Qed.

Lemma bind_raise {A B} (m : M A) (k : A -> M B) w e w1 :
  m w = (Raise e, w1) → bind m k w = (Raise e, w1).
Proof. intros Hm. unfold bind. by rewrite Hm. Qed.

Lemma extends_refl (h : list cell) : extends h h.
Proof. by intros l c. Qed.

Lemma extends_trans (h1 h2 h3 : list cell) : extends h1 h2 → extends h2 h3 → extends h1 h3.
Proof. intros H12 H23 l c Hl. by apply H23, H12. Qed.

Lemma extends_length (h h' : list cell) : extends h h' → length h ≤ length h'.
Proof.
  intros Hext. destruct (decide (length h ≤ length h')) as [|Hlt]; [done|].
  assert (Hin : length h' < length h) by lia.
  apply lookup_lt_is_Some_2 in Hin as [c Hc].
  apply Hext, lookup_lt_Some in Hc. lia.
Qed.

Lemma extends_insert_new (h h' : list cell) l c :
  length h ≤ l → extends h h' → extends h (<[l := c]> h').
Proof.
  intros Hl Hext i ci Hi. rewrite list_lookup_insert_ne; [by apply Hext|].
  apply lookup_lt_Some in Hi. lia.
Qed.

Lemma extends_field (h h' : list cell) o k v :
  extends h h' → field h o k = Some v → field h' o k = Some v.
Proof.
  intros Hext. unfold field. destruct o as [| | | |l| |]; try done.
  destruct (h !! l) as [[d|xs]|] eqn:Hl; try done.
  by rewrite (Hext _ _ Hl).
Qed.

Lemma extends_deref (h h' : list cell) v c :
  extends h h' → deref h v = Some c → deref h' v = Some c.
Proof. intros Hext. destruct v; try done. apply Hext. Qed.

(** [setitem] writes one key of one dict and nothing else. *)
Lemma setitem_ok_inv o k v w u w' :
  setitem o k v w = (Ok u, w') →
  ∃ l d, o = VRef l ∧ heap w !! l = Some (CDict d)
         ∧ w' = {| heap := <[l := CDict (<[k := v]> d)]> (heap w);
                   trace := trace w |}.
Proof.
  unfold setitem, store. destruct o as [| | | |l| |]; try discriminate.
  destruct (heap w !! l) as [[d|xs]|] eqn:Hl; try discriminate.
  intros [= _ <-]. eauto.
Qed.

Lemma setitem_ok l d k v w :
  heap w !! l = Some (CDict d) →
  setitem (VRef l) k v w
  = (Ok tt, {| heap := <[l := CDict (<[k := v]> d)]> (heap w);
               trace := trace w |}).
Proof. intros Hl. unfold setitem, store. by rewrite Hl. Qed.

Lemma getitem_inv o k w r w' : getitem o k w = (r, w') → w' = w.
Proof.
  unfold getitem. destruct o as [| | | |l| |]; try by intros [= _ <-].
  destruct (heap w !! l) as [[d|xs]|]; try by intros [= _ <-].
  destruct (d !! k); by intros [= _ <-].
Qed.

Lemma getitem_field l k w v :
  field (heap w) (VRef l) k = Some v → getitem (VRef l) k w = (Ok v, w).
Proof.
  unfold field, getitem. destruct (heap w !! l) as [[d|xs]|]; try done.
  by intros ->.
Qed.

Lemma append_ok_inv o v w u w' :
  append o v w = (Ok u, w') →
  ∃ l xs, o = VRef l ∧ heap w !! l = Some (CList xs)
          ∧ w' = {| heap := <[l := CList (xs ++ [v])]> (heap w);
                    trace := trace w |}.
Proof.
  unfold append, store. destruct o as [| | | |l| |]; try discriminate.
  destruct (heap w !! l) as [[d|xs]|] eqn:Hl; try discriminate.
  intros [= _ <-]. eauto.
Qed.

Lemma append_ok l xs v w :
  heap w !! l = Some (CList xs) →
  append (VRef l) v w
  = (Ok tt, {| heap := <[l := CList (xs ++ [v])]> (heap w); trace := trace w |}).
Proof. intros Hl. unfold append, store. by rewrite Hl. Qed.

Lemma allocates_ret {A} (a : A) : allocates (ret a).
Proof. intros w. exists a, w. split_and!; [done | apply extends_refl | done]. Qed.

Lemma allocates_alloc (c : cell) : allocates (alloc c).
Proof.
  intros w. eexists _, _. split; [reflexivity|]. simpl. split; [|done].
  intros l c' Hl. by apply lookup_app_l_Some.
Qed.

Lemma allocates_bind {A B} (m : M A) (k : A -> M B) :
  allocates m → (∀ a, allocates (k a)) → allocates (bind m k).
Proof.
  intros Hm Hk w. destruct (Hm w) as (a & w1 & Hrun & Hext & Htrace).
  destruct (Hk a w1) as (b & w2 & Hrun2 & Hext2 & Htrace2).
  exists b, w2. rewrite (bind_ok _ _ _ _ _ Hrun).
  split_and!; [done | by eapply extends_trans | congruence].
Qed.

Lemma alloc_data_allocates (d : data) : allocates (alloc_data d).
Proof.
  revert d. fix IH 1. intros [|b|n|s|xs|kvs]; cbn [alloc_data].
  - apply allocates_ret.
  - apply allocates_ret.
  - apply allocates_ret.
  - apply allocates_ret.
  - apply allocates_bind; [|intros; apply allocates_alloc].
    revert xs. fix IHxs 1. intros [|x xs]; cbn [mapM].
    + apply allocates_ret.
    + apply allocates_bind; [apply IH|]. intros y.
      apply allocates_bind; [apply IHxs|]. intros ys. apply allocates_ret.
  - apply allocates_bind; [|intros; apply allocates_alloc].
    revert kvs. fix IHkvs 1. intros [|[k d] kvs]; cbn [mapM].
    + apply allocates_ret.
    + apply allocates_bind.
      * apply allocates_bind; [apply IH|]. intros v. apply allocates_ret.
      * intros y. apply allocates_bind; [apply IHkvs|]. intros ys.
        apply allocates_ret.
Qed.

End store_facts.

(** ** Nodes *)

Section node_facts.
Context `{Externals}.

Lemma chain_invoke_heap prompt_text llm parser inputs w r w' :
  chain_invoke prompt_text llm parser inputs w = (r, w') → heap w' = heap w.
Proof.
  unfold chain_invoke, bind, get_world, lift, chat, ret, raise.
  destruct (deref (heap w) inputs) as [[d|xs]|]; try by intros [= _ <-].
  destruct (prompt_format _ _ _) as [text|e]; [|by intros [= _ <-]].
  simpl. destruct (chat_completion _ _ _) as [message|e]; [|by intros [= _ <-]].
  destruct parser as [[sch|]|]; try by intros [= _ <-].
  destruct (pydantic_parse sch message); by intros [= _ <-].
Qed.

Lemma model_dump_extends result w r w' :
  model_dump result w = (r, w') → extends (heap w) (heap w').
Proof.
  destruct result as [| | | | | |fields];
    try (intros [= _ <-]; apply extends_refl).
  unfold model_dump. intros Hdump.
  destruct (alloc_data_allocates (DDict fields) w) as (v & w1 & Hv & Hext & _).
  rewrite Hv in Hdump. by injection Hdump as _ <-.
Qed.

Lemma inject_heap format_instructions inputs w r w' :
  inject format_instructions inputs w = (r, w') →
  heap w' = heap w
  ∨ ∃ l d, inputs = VRef l ∧ heap w !! l = Some (CDict d)
           ∧ heap w' = <[l := CDict (<["format_instructions"
                                       := VStr format_instructions]> d)]> (heap w).
Proof.
  unfold inject, setitem, store, ret.
  destruct (truthy format_instructions); [|by intros [= _ <-]; left].
  destruct inputs as [| | | |l| |]; try by (intros [= _ <-]; left).
  destruct (heap w !! l) as [[d|xs]|] eqn:Hl; try by (intros [= _ <-]; left).
  intros [= _ <-]. right. by exists l, d.
Qed.

(** Up to its result a node writes at most into the mapping that
    [make_inputs] returned. *)
Lemma run_chain_extends llm prompt_text make_inputs parser format_instructions
    node_name state w r w' :
  assembles_on make_inputs state (heap w) →
  run_chain llm prompt_text make_inputs parser format_instructions node_name
    state w = (r, w') →
  extends (heap w) (heap w').
Proof.
  intros Hmi. unfold run_chain.
  unfold bind at 1. unfold emit at 1.
  unfold bind at 1.
  destruct (make_inputs state _) as [[inputs|e] w1] eqn:Hin.
  2:{ intros [= _ <-]. by eapply (Hmi (logged node_name w) _ _ eq_refl Hin). }
  destruct (Hmi (logged node_name w) _ _ eq_refl Hin) as [Hext Hnew].
  destruct (Hnew inputs eq_refl) as (li & -> & Hli). simpl in Hext, Hli.
  unfold bind at 1.
  destruct (inject _ _ w1) as [[[]|e] w2] eqn:Hinj.
  2:{ intros [= _ <-].
      apply inject_heap in Hinj as [->|(l & d & [= <-] & _ & ->)]; [done|].
      by apply extends_insert_new. }
  assert (Hext2 : extends (heap w) (heap w2)).
  { apply inject_heap in Hinj as [->|(l & d & [= <-] & _ & ->)]; [done|].
    by apply extends_insert_new. }
  unfold bind at 1.
  destruct (chain_invoke _ _ _ _ w2) as [[result|e] w3] eqn:Hchain.
  2:{ intros [= _ <-]. by rewrite (chain_invoke_heap _ _ _ _ _ _ _ Hchain). }
  apply chain_invoke_heap in Hchain.
  destruct (isinstance_PydanticOutputParser parser).
  - intros Hd. apply model_dump_extends in Hd. rewrite Hchain in Hd.
    by eapply extends_trans.
  - intros [= _ <-]. by rewrite Hchain.
Qed.

Lemma report_heap printout result w r w' :
  report printout result w = (r, w') → r = Ok tt ∧ heap w' = heap w.
Proof. unfold report, emit, ret. destruct printout; by intros [= <- <-]. Qed.

(** A node that returns has got a result from its chain and has committed
    it; the state it returns is the one it was given. *)
Lemma node_ok_inv llm prompt_text make_inputs parser_output state_key
    state_append node_name printout skip_parser state w r w' :
  make_llm_node llm prompt_text make_inputs parser_output state_key
    state_append node_name printout skip_parser state w = (Ok r, w') →
  ∃ result w1 w2,
    run_chain llm prompt_text make_inputs
      (build_parser parser_output skip_parser).1
      (build_parser parser_output skip_parser).2 node_name state w
    = (Ok result, w1)
    ∧ commit state_append state state_key result w1 = (Ok tt, w2)
    ∧ heap w' = heap w2 ∧ r = state.
Proof.
  unfold make_llm_node. intros Hnode.
  apply bind_ok_inv in Hnode as (result & w1 & Hrun & Hnode).
  apply bind_ok_inv in Hnode as ([] & w2 & Hcommit & Hnode).
  apply bind_ok_inv in Hnode as ([] & w3 & Hreport & Hnode).
  apply report_heap in Hreport as [_ Hw3].
  injection Hnode as <- <-. by exists result, w1, w2.
Qed.

End node_facts.

(** *** Format instructions *)

Section format_instructions.
Context `{Externals}.

Lemma node_after_inputs llm prompt_text make_inputs parser_output state_key
    state_append node_name printout skip_parser state w inputs w1 w2 :
  make_inputs state (logged node_name w) = (Ok inputs, w1) →
  inject (build_parser parser_output skip_parser).2 inputs w1 = (Ok tt, w2) →
  make_llm_node llm prompt_text make_inputs parser_output state_key
    state_append node_name printout skip_parser state w
  = after_inputs llm prompt_text (build_parser parser_output skip_parser).1
      state_key state_append printout state inputs w2.
Proof.
  intros Hin Hinj. unfold make_llm_node, after_inputs, run_chain.
  unfold bind at 1 2 3. unfold emit at 1. fold (logged node_name w).
  rewrite Hin. unfold bind at 1 2. rewrite Hinj. reflexivity.
Qed.

(** C8, as the code has it: with a schema and parsing not skipped, the
    parser is the structured one and the format instructions are derived
    from the schema when the node is built; at each call they are written
    into the mapping returned by [make_inputs] under the key
    [format_instructions], and the chain, which renders the prompt, runs
    on the mapping so completed.  Without a schema and parsing not
    skipped, the parser is the pass-through string parser; with parsing
    skipped there is no parser at all.  In these two cases the format
    instructions are empty and the chain runs on the mapping exactly as
    [make_inputs] left it. *)
Theorem format_instructions_injected llm prompt_text make_inputs state_key
    state_append node_name printout state w :
  (∀ sch, build_parser (Some sch) false
          = (Some (PydanticOutputParser sch), get_format_instructions sch))
  ∧ (∀ sch li d w1,
       truthy (get_format_instructions sch) = true →
       make_inputs state (logged node_name w) = (Ok (VRef li), w1) →
       heap w1 !! li = Some (CDict d) →
       let w2 :=
         {| heap := <[li := CDict (<["format_instructions"
                                     := VStr (get_format_instructions sch)]> d)]>
                      (heap w1);
            trace := trace w1 |} in
       deref (heap w2) (VRef li)
       = Some (CDict (<["format_instructions"
                        := VStr (get_format_instructions sch)]> d))
       ∧ make_llm_node llm prompt_text make_inputs (Some sch) state_key
           state_append node_name printout false state w
         = after_inputs llm prompt_text (Some (PydanticOutputParser sch))
             state_key state_append printout state (VRef li) w2)
  ∧ build_parser None false = (Some StrOutputParser, EmptyString)
  ∧ (∀ parser_output, build_parser parser_output true = (None, EmptyString))
  ∧ (∀ parser_output skip_parser inputs w1,
       parser_output = None ∨ skip_parser = true →
       make_inputs state (logged node_name w) = (Ok inputs, w1) →
       make_llm_node llm prompt_text make_inputs parser_output state_key
         state_append node_name printout skip_parser state w
       = after_inputs llm prompt_text (build_parser parser_output skip_parser).1
           state_key state_append printout state inputs w1).
Proof.
  split_and!; [done| |done|done|].
  - intros sch li d w1 Hfi Hin Hli w2. split.
    + simpl. apply list_lookup_insert_eq. by eapply lookup_lt_Some.
    + apply (node_after_inputs _ _ _ (Some sch) _ _ _ _ false _ _ _ w1 w2 Hin).
      simpl. unfold inject. rewrite Hfi. by apply setitem_ok.
  - intros parser_output skip_parser inputs w1 Hcase Hin.
    apply (node_after_inputs _ _ _ _ _ _ _ _ _ _ _ _ w1 w1 Hin).
    assert ((build_parser parser_output skip_parser).2 = EmptyString) as ->.
    { destruct Hcase as [-> | ->]; [by destruct skip_parser|done]. }
    reflexivity.
Qed.

End format_instructions.

Lemma format_instructions_injected_demo :
  let fi := "Return JSON for GoalDecompNodeParser" in
  let w2 :=
    {| heap := demo.heap0
               ++ [CDict (<["format_instructions" := VStr fi]> inputs_of_state0)];
       trace := [EvLog (banner "GOAL_DECOMP_NODE")] |} in
  deref (heap w2) (VRef 5)
  = Some (CDict (<["format_instructions" := VStr fi]> inputs_of_state0))
  ∧ @make_llm_node demo.ext demo.llm "goal prompt" demo.fresh_inputs
      (Some (Schema "GoalDecompNodeParser")) "subgoals" false
      "GOAL_DECOMP_NODE" true false demo.state0 demo.world0
    = @after_inputs demo.ext demo.llm "goal prompt"
        (Some (PydanticOutputParser (Schema "GoalDecompNodeParser")))
        "subgoals" false true demo.state0 (VRef 5) w2.
Proof.
  apply (proj1 (proj2 (@format_instructions_injected demo.ext demo.llm
           "goal prompt" demo.fresh_inputs "subgoals" false "GOAL_DECOMP_NODE"
           true demo.state0 demo.world0))
         (Schema "GoalDecompNodeParser") 5 inputs_of_state0
         {| heap := demo.heap0 ++ [CDict inputs_of_state0];
            trace := [EvLog (banner "GOAL_DECOMP_NODE")] |});
    reflexivity.
Defined.

(** C8, as stated, fails when parsing is skipped: without a schema and with
    [skip_parser] set, the node has no parser at all, and what it commits
    is the model's raw message, not a string. *)
Lemma skipped_parser_is_no_string_parser :
  (@build_parser demo.ext None true).1 ≠ Some StrOutputParser
  ∧ ∃ w', @make_llm_node demo.ext demo.llm "prompt" demo.fresh_inputs None
            "subgoals" false "NODE" true true demo.state0 demo.world0
          = (Ok demo.state0, w')
          ∧ field (heap w') demo.state0 "subgoals" = Some (VMsg "answer").
Proof.
  split; [discriminate|]. eexists. split; reflexivity.
Qed.

(** *** Errors *)

Section node_errors.
Context `{Externals}.

Lemma extends_view (h h' : list cell) state k v c :
  extends h h' →
  view h state k = Some (v, Some c) → view h' state k = Some (v, Some c).
Proof.
  intros Hext. unfold view.
  destruct (field h state k) as [v0|] eqn:Hf; [|done].
  intros [= -> Hd]. rewrite (extends_field _ _ _ _ _ Hext Hf).
  by rewrite (extends_deref _ _ _ _ Hext Hd).
Qed.

(** C2, as the code has it: an error raised before the node has its result
    (by the assembly of the inputs, the rendering of the prompt, the model
    call or the parsing) is the node's outcome, and the world is the one in
    which the error was raised: nothing is committed.  What was written
    before the error stays written; when [make_inputs] leaves the existing
    objects alone and returns a new mapping, every object that existed when
    the node was entered is unchanged, and so is what each field of the
    state shows. *)
Theorem node_error_propagates llm prompt_text make_inputs parser_output
    state_key state_append node_name printout skip_parser state w e w' :
  run_chain llm prompt_text make_inputs
    (build_parser parser_output skip_parser).1
    (build_parser parser_output skip_parser).2 node_name state w
  = (Raise e, w') →
  make_llm_node llm prompt_text make_inputs parser_output state_key
    state_append node_name printout skip_parser state w = (Raise e, w')
  ∧ (assembles_on make_inputs state (heap w) →
     extends (heap w) (heap w')
     ∧ ∀ k v c, view (heap w) state k = Some (v, Some c) →
                view (heap w') state k = Some (v, Some c)).
Proof.
  intros Hrun. split.
  - unfold make_llm_node. by apply bind_raise.
  - intros Hmi.
    assert (Hext : extends (heap w) (heap w')) by by eapply run_chain_extends.
    split; [done|]. intros k v c. by apply extends_view.
Qed.

End node_errors.

Lemma fresh_inputs_assembles : assembles demo.fresh_inputs.
Proof.
  intros state h w r w' <- Hrun. unfold demo.fresh_inputs in Hrun.
  unfold bind in Hrun.
  destruct (getitem state "user_queries" w) as [[queries|e] w1] eqn:Hget;
    apply getitem_inv in Hget as ->.
  - injection Hrun as <- <-. simpl. split.
    + intros l c Hl. by apply lookup_app_l_Some.
    + intros v [= <-]. by eexists.
  - injection Hrun as <- <-. split; [apply extends_refl | done].
Qed.

Lemma node_error_propagates_demo :
  @make_llm_node demo.ext_down demo.llm "goal prompt" demo.fresh_inputs
    (Some (Schema "GoalDecompNodeParser")) "subgoals" false
    "GOAL_DECOMP_NODE" true false demo.state0 demo.world0
  = (Raise (Exception "APIConnectionError" EmptyString), world_after_call)
  ∧ extends demo.heap0 (heap world_after_call).
Proof.
  destruct (@node_error_propagates demo.ext_down demo.llm "goal prompt"
              demo.fresh_inputs (Some (Schema "GoalDecompNodeParser"))
              "subgoals" false "GOAL_DECOMP_NODE" true false demo.state0
              demo.world0 (Exception "APIConnectionError" EmptyString)
              world_after_call eq_refl) as [Hnode Hkept].
  split; [exact Hnode|]. apply Hkept, fresh_inputs_assembles.
Defined.

(** C2, as stated, fails: the node below gets the state's own [inputs]
    mapping from [make_inputs], writes the format instructions into it and
    then sees its model call fail.  The error reaches the caller, and the
    [inputs] field of the state record no longer shows what it showed when
    the node was entered. *)
Lemma failing_node_changes_state :
  ∃ w', @make_llm_node demo.ext_down demo.llm "goal prompt" demo.shared_inputs
          (Some (Schema "GoalDecompNodeParser")) "subgoals" false
          "GOAL_DECOMP_NODE" true false demo.state0 demo.world0
        = (Raise (Exception "APIConnectionError" EmptyString), w')
        ∧ view (heap demo.world0) demo.state0 "inputs"
          = Some (VRef 1, Some (CDict {[ "object_text" := VStr "objects";
                                         "skill_text" := VStr "skills" ]}))
        ∧ view (heap w') demo.state0 "inputs"
          = Some (VRef 1,
                  Some (CDict (<["format_instructions"
                                 := VStr "Return JSON for GoalDecompNodeParser"]>
                               {[ "object_text" := VStr "objects";
                                  "skill_text" := VStr "skills" ]})))
        ∧ view (heap w') demo.state0 "inputs"
          ≠ view (heap demo.world0) demo.state0 "inputs".
Proof.
  eexists. split_and!; [reflexivity..|].
  intros Heq. apply (f_equal (λ o, match o with
                                   | Some (_, Some (CDict d)) =>
                                       d !! "format_instructions"
                                   | _ => None
                                   end)) in Heq.
  vm_compute in Heq. discriminate.
Qed.

(** ** The compiled graph *)

Section graph_facts.
Context `{Externals}.

Lemma compile_plan goal_llm task_llm :
  compile (plan goal_llm task_llm) = Ok (plan goal_llm task_llm).
Proof. reflexivity. Qed.

Lemma create_graph_ok cfg goal_model task_model w :
  _resolve_model_enum (inr (model_name (goal_decomp_node (runner cfg))))
    = Ok goal_model →
  _resolve_model_enum (inr (model_name (task_decomp_node (runner cfg))))
    = Ok task_model →
  create_graph cfg w
  = (Ok (plan (goal_llm_of cfg goal_model) (task_llm_of cfg task_model)), w).
Proof.
  intros Hgoal Htask. unfold create_graph, bind, lift.
  by rewrite Hgoal, Htask.
Qed.

Lemma create_graph_ok_inv cfg w g w' :
  create_graph cfg w = (Ok g, w') →
  ∃ goal_model task_model,
    g = plan (goal_llm_of cfg goal_model) (task_llm_of cfg task_model)
    ∧ w' = w.
Proof.
  unfold create_graph, bind, lift.
  destruct (_resolve_model_enum (inr (model_name (goal_decomp_node _))))
    as [goal_model|]; [|discriminate].
  destruct (_resolve_model_enum (inr (model_name (task_decomp_node _))))
    as [task_model|]; [|discriminate].
  intros [= <- <-]. by exists goal_model, task_model.
Qed.

(** A run of the plan is the goal node followed by the task node. *)
Lemma invoke_plan goal_llm task_llm state w :
  invoke (plan goal_llm task_llm) state w
  = (let* state := goal_node goal_llm state in task_node task_llm state) w.
Proof.
  unfold invoke, graph.recursion_limit. cbn -[goal_node task_node].
  unfold bind. destruct (goal_node goal_llm state w) as [[s|e] w1]; [|done].
  by destruct (task_node task_llm s w1) as [[s'|e] w2].
Qed.

(** C5: when both model identifiers resolve, [create_graph] yields, without
    touching the world, the plan with the two nodes [goal_decomp] and
    [task_decomp] and the edges [START → goal_decomp → task_decomp → END].
    One edge leaves [START], each node has one successor, the plan has no
    cycle and every node reaches [END]; a run is the goal-decomposition
    node followed by the task-decomposition node, each called once. *)
Theorem create_graph_linear_chain cfg goal_model task_model w :
  _resolve_model_enum (inr (model_name (goal_decomp_node (runner cfg))))
    = Ok goal_model →
  _resolve_model_enum (inr (model_name (task_decomp_node (runner cfg))))
    = Ok task_model →
  ∃ g, create_graph cfg w = (Ok g, w)
       ∧ (nodes g).*1 = ["goal_decomp"; "task_decomp"]
       ∧ edges g = [(START, "goal_decomp"); ("goal_decomp", "task_decomp");
                    ("task_decomp", END)]
       ∧ successors (edges g) START = ["goal_decomp"]
       ∧ successors (edges g) "goal_decomp" = ["task_decomp"]
       ∧ successors (edges g) "task_decomp" = [END]
       ∧ acyclic g = true
       ∧ all_reach_END g = true
       ∧ ∀ state w0,
           invoke g state w0
           = (let* state := goal_node (goal_llm_of cfg goal_model) state in
              task_node (task_llm_of cfg task_model) state) w0.
Proof.
  intros Hgoal Htask. eexists. split; [by apply create_graph_ok|].
  split_and!; try reflexivity. apply invoke_plan.
Qed.

End graph_facts.

Lemma create_graph_linear_chain_demo :
  ∃ g, @create_graph demo.ext config.config demo.world0 = (Ok g, demo.world0)
       ∧ (nodes g).*1 = ["goal_decomp"; "task_decomp"]
       ∧ edges g = [(START, "goal_decomp"); ("goal_decomp", "task_decomp");
                    ("task_decomp", END)].
Proof.
  destruct (@create_graph_linear_chain demo.ext config.config
              {| _name_ := "gpt41mini"; _value_ := "gpt-4.1-mini" |}
              {| _name_ := "gpt41mini"; _value_ := "gpt-4.1-mini" |}
              demo.world0 eq_refl eq_refl)
    as (g & Hg & Hnodes & Hedges & _).
  by exists g.
Defined.

(** ** The merge of a node's result *)

Section merge_policy.
Context `{Externals}.

Lemma field_insert_self (h : list cell) l d k v :
  h !! l = Some (CDict d) →
  field (<[l := CDict (<[k := v]> d)]> h) (VRef l) k = Some v.
Proof.
  intros Hl. unfold field.
  rewrite list_lookup_insert_eq by by eapply lookup_lt_Some.
  apply lookup_insert_eq.
Qed.

Lemma field_insert_other (h : list cell) l d k k' v :
  h !! l = Some (CDict d) → k' ≠ k →
  field (<[l := CDict (<[k := v]> d)]> h) (VRef l) k' = field h (VRef l) k'.
Proof.
  intros Hl Hk. unfold field.
  rewrite list_lookup_insert_eq by by eapply lookup_lt_Some.
  rewrite Hl. by apply lookup_insert_ne.
Qed.

Lemma commit_replace_inv state state_key result w w' :
  commit false state state_key result w = (Ok tt, w') →
  ∃ l d, state = VRef l ∧ heap w !! l = Some (CDict d)
         ∧ heap w' = <[l := CDict (<[state_key := result]> d)]> (heap w).
Proof.
  intros Hc. apply setitem_ok_inv in Hc as (l & d & -> & Hl & ->).
  by exists l, d.
Qed.

Lemma commit_append_inv state state_key result w w' :
  commit true state state_key result w = (Ok tt, w') →
  ∃ ls xs, field (heap w) state state_key = Some (VRef ls)
           ∧ heap w !! ls = Some (CList xs)
           ∧ heap w' = <[ls := CList (xs ++ [result])]> (heap w).
Proof.
  unfold commit. intros Hc.
  apply bind_ok_inv in Hc as (seq & w1 & Hget & Happ).
  pose proof (getitem_inv _ _ _ _ _ Hget) as ->.
  apply append_ok_inv in Happ as (ls & xs & -> & Hls & ->).
  exists ls, xs. split_and!; [|done..].
  unfold getitem in Hget. unfold field.
  destruct state as [| | | |l| |]; try discriminate.
  destruct (heap w !! l) as [[d|ys]|]; try discriminate.
  destruct (d !! state_key); by simplify_eq.
Qed.

Lemma node_replace llm prompt_text make_inputs parser_output state_key
    node_name printout skip_parser l d w result w1 :
  run_chain llm prompt_text make_inputs
    (build_parser parser_output skip_parser).1
    (build_parser parser_output skip_parser).2 node_name (VRef l) w
  = (Ok result, w1) →
  heap w1 !! l = Some (CDict d) →
  ∃ w', make_llm_node llm prompt_text make_inputs parser_output state_key
          false node_name printout skip_parser (VRef l) w = (Ok (VRef l), w')
        ∧ heap w' = <[l := CDict (<[state_key := result]> d)]> (heap w1)
        ∧ field (heap w') (VRef l) state_key = Some result.
Proof.
  intros Hrun Hl. unfold make_llm_node.
  rewrite (bind_ok _ _ _ _ _ Hrun).
  rewrite (bind_ok _ _ _ _ _ (setitem_ok _ _ state_key result _ Hl)).
  destruct printout; (eexists; split; [reflexivity|]); simpl;
    (split; [done | by apply field_insert_self]).
Qed.

Lemma node_append llm prompt_text make_inputs parser_output state_key
    node_name printout skip_parser l ls xs w result w1 :
  run_chain llm prompt_text make_inputs
    (build_parser parser_output skip_parser).1
    (build_parser parser_output skip_parser).2 node_name (VRef l) w
  = (Ok result, w1) →
  field (heap w1) (VRef l) state_key = Some (VRef ls) →
  heap w1 !! ls = Some (CList xs) →
  ∃ w', make_llm_node llm prompt_text make_inputs parser_output state_key
          true node_name printout skip_parser (VRef l) w = (Ok (VRef l), w')
        ∧ heap w' = <[ls := CList (xs ++ [result])]> (heap w1)
        ∧ view (heap w') (VRef l) state_key
          = Some (VRef ls, Some (CList (xs ++ [result]))).
Proof.
  intros Hrun Hfield Hls. unfold make_llm_node.
  rewrite (bind_ok _ _ _ _ _ Hrun).
  assert (Hcommit : commit true (VRef l) state_key result w1
                    = (Ok tt, {| heap := <[ls := CList (xs ++ [result])]> (heap w1);
                                 trace := trace w1 |})).
  { unfold commit. rewrite (bind_ok _ _ _ _ _ (getitem_field _ _ _ _ Hfield)).
    by apply append_ok. }
  rewrite (bind_ok _ _ _ _ _ Hcommit).
  assert (Hview : view (<[ls := CList (xs ++ [result])]> (heap w1)) (VRef l)
                    state_key
                  = Some (VRef ls, Some (CList (xs ++ [result])))).
  { unfold view, field in *.
    destruct (heap w1 !! l) as [[d|ys]|] eqn:Hl; try done.
    rewrite list_lookup_insert_ne by (intros ->; congruence).
    rewrite Hl, Hfield. simpl.
    by rewrite list_lookup_insert_eq by by eapply lookup_lt_Some. }
  destruct printout; (eexists; split; [reflexivity|]); simpl; by split.
Qed.

(** C1: once a node has the result of its chain (the parsed output, dumped
    to a mapping when the parser is the structured one), it commits it by
    its merge policy.  In replace mode the key [state_key] of the state
    record is bound to the result, whatever it was bound to.  In append
    mode the result is added at the end of the sequence that
    [state[state_key]] refers to.  [create_graph] builds both of its nodes
    in replace mode, on [subgoals] and on [tasks]; after a run that raised
    no error, [tasks] is bound to exactly the result of the task node's
    chain. *)
Theorem commit_by_merge_policy :
  (∀ llm prompt_text make_inputs parser_output state_key node_name printout
     skip_parser l w result w1,
     run_chain llm prompt_text make_inputs
       (build_parser parser_output skip_parser).1
       (build_parser parser_output skip_parser).2 node_name (VRef l) w
     = (Ok result, w1) →
     (∀ d, heap w1 !! l = Some (CDict d) →
        ∃ w', make_llm_node llm prompt_text make_inputs parser_output
                state_key false node_name printout skip_parser (VRef l) w
              = (Ok (VRef l), w')
              ∧ heap w' = <[l := CDict (<[state_key := result]> d)]> (heap w1)
              ∧ field (heap w') (VRef l) state_key = Some result)
     ∧ (∀ ls xs, field (heap w1) (VRef l) state_key = Some (VRef ls) →
                 heap w1 !! ls = Some (CList xs) →
        ∃ w', make_llm_node llm prompt_text make_inputs parser_output
                state_key true node_name printout skip_parser (VRef l) w
              = (Ok (VRef l), w')
              ∧ heap w' = <[ls := CList (xs ++ [result])]> (heap w1)
              ∧ view (heap w') (VRef l) state_key
                = Some (VRef ls, Some (CList (xs ++ [result])))))
  ∧ (∀ llm, goal_node llm
            = make_llm_node llm GOAL_DECOMP_NODE_PROMPT
                make_goal_decomp_node_inputs (Some GoalDecompNodeParser)
                "subgoals" false "GOAL_DECOMP_NODE" true false)
  ∧ (∀ llm, task_node llm
            = make_llm_node llm TASK_DECOMP_NODE_PROMPT
                make_task_decomp_node_inputs (Some TaskDecompNodeParser)
                "tasks" false "TASK_DECOMP_NODE" true false)
  ∧ (∀ cfg w0 g w0' state w r w',
       create_graph cfg w0 = (Ok g, w0') →
       invoke g state w = (Ok r, w') →
       ∃ goal_llm task_llm w1 result w2,
         assoc "goal_decomp" (nodes g) = Some (goal_node goal_llm)
         ∧ assoc "task_decomp" (nodes g) = Some (task_node task_llm)
         ∧ goal_node goal_llm state w = (Ok state, w1)
         ∧ run_chain task_llm TASK_DECOMP_NODE_PROMPT
             make_task_decomp_node_inputs
             (Some (PydanticOutputParser TaskDecompNodeParser))
             (get_format_instructions TaskDecompNodeParser)
             "TASK_DECOMP_NODE" state w1 = (Ok result, w2)
         ∧ r = state
         ∧ field (heap w') state "tasks" = Some result).
Proof.
  split_and!; [|done|done|].
  - intros. split; intros; [by eapply node_replace | by eapply node_append].
  - intros cfg w0 g w0' state w r w' Hg Hrun.
    apply create_graph_ok_inv in Hg as (gm & tm & -> & ->).
    rewrite invoke_plan in Hrun.
    apply bind_ok_inv in Hrun as (s & w1 & Hgoal & Htask).
    pose proof Hgoal as Hgoal'.
    apply node_ok_inv in Hgoal' as (_ & _ & _ & _ & _ & _ & ->).
    apply node_ok_inv in Htask as (result & w2 & w3 & Hchain & Hcommit & Hw' & ->).
    apply commit_replace_inv in Hcommit as (l & d & -> & Hl & Hw3).
    exists (goal_llm_of cfg gm), (task_llm_of cfg tm), w1, result, w2.
    split_and!; try done.
    rewrite Hw', Hw3. by apply field_insert_self.
Qed.

End merge_policy.

Lemma commit_by_merge_policy_demo :
  (∃ w', @make_llm_node demo.ext demo.llm "goal prompt" demo.fresh_inputs
           (Some (Schema "GoalDecompNodeParser")) "subgoals" false
           "GOAL_DECOMP_NODE" true false demo.state0 demo.world0
         = (Ok demo.state0, w')
         ∧ field (heap w') demo.state0 "subgoals" = Some (VRef 7)
         ∧ heap w' !! 7 = Some (CDict {[ "items" := VRef 6 ]})
         ∧ heap w' !! 6 = Some (CList [VStr "answer"]))
  ∧ (∃ w', @make_llm_node demo.ext demo.llm "prompt" demo.fresh_inputs
             None "user_queries" true "NOTE" true false demo.state0
             demo.world0
           = (Ok demo.state0, w')
           ∧ view (heap w') demo.state0 "user_queries"
             = Some (VRef 0, Some (CList [VStr "pick up the red block";
                                          VStr "answer"])))
  ∧ (∃ g w' result,
       @create_graph demo.ext config.config demo.world0 = (Ok g, demo.world0)
       ∧ @invoke g demo.state0 demo.world0 = (Ok demo.state0, w')
       ∧ field (heap w') demo.state0 "tasks" = Some result).
Proof.
  split_and!.
  - destruct (proj1 (@commit_by_merge_policy demo.ext) demo.llm "goal prompt"
                demo.fresh_inputs (Some (Schema "GoalDecompNodeParser"))
                "subgoals" "GOAL_DECOMP_NODE" true false 4 demo.world0
                (VRef 7) world_after_dump eq_refl) as [Hreplace _].
    destruct (Hreplace _ eq_refl) as (w' & Hnode & Hheap & Hfield).
    exists w'. rewrite Hheap. by split_and!.
  - destruct (proj1 (@commit_by_merge_policy demo.ext) demo.llm "prompt"
                demo.fresh_inputs None "user_queries" "NOTE" true false 4
                demo.world0 (VStr "answer") world_after_plain_call eq_refl)
      as [_ Happend].
    destruct (Happend 0 [VStr "pick up the red block"] eq_refl eq_refl)
      as (w' & Hnode & _ & Hview).
    by exists w'.
  - pose proof (proj2 (proj2 (proj2 (@commit_by_merge_policy demo.ext)))
                  config.config demo.world0 demo_graph demo.world0 demo.state0
                  demo.world0 demo.state0) as Hrun.
    assert (Hcreate : @create_graph demo.ext config.config demo.world0
                      = (Ok demo_graph, demo.world0)) by reflexivity.
    assert (Hinvoke : invoke demo_graph demo.state0 demo.world0
                      = (Ok demo.state0, world_after_run))
      by (vm_compute; reflexivity).
    destruct (Hrun world_after_run Hcreate Hinvoke)
      as (goal_llm & task_llm & w1 & result & w2 & _ & _ & _ & _ & Hr & Hfield).
    exists demo_graph, world_after_run, result.
    split_and!; [exact Hcreate | exact Hinvoke | exact Hfield].
Defined.

(** ** What a node leaves alone *)

Section frame.
Context `{Externals}.

Lemma extends_lookup_lt (h h' : list cell) i :
  extends h h' → i < length h → h' !! i = h !! i.
Proof.
  intros Hext Hi. apply lookup_lt_is_Some_2 in Hi as [c Hc].
  by rewrite Hc, (Hext _ _ Hc).
Qed.

(** A node that returns has written one object of those that existed when
    it was entered: the state record, at [state_key], in replace mode; the
    sequence at [state[state_key]] in append mode. *)
Lemma node_writes llm prompt_text make_inputs parser_output state_key
    state_append node_name printout skip_parser l d w r w' :
  heap w !! l = Some (CDict d) →
  assembles_on make_inputs (VRef l) (heap w) →
  make_llm_node llm prompt_text make_inputs parser_output state_key
    state_append node_name printout skip_parser (VRef l) w = (Ok r, w') →
  r = VRef l
  ∧ length (heap w) ≤ length (heap w')
  ∧ ∃ target d',
      heap w' !! l = Some (CDict d')
      ∧ (∀ k, k ≠ state_key → d' !! k = d !! k)
      ∧ (state_append = false → target = l ∧ is_Some (d' !! state_key))
      ∧ (state_append = true → d !! state_key = Some (VRef target))
      ∧ ∀ i, i < length (heap w) → i ≠ target → heap w' !! i = heap w !! i.
Proof.
  intros Hl Hmi Hnode.
  apply node_ok_inv in Hnode as (result & w1 & w2 & Hrun & Hcommit & Hw' & ->).
  pose proof (run_chain_extends _ _ _ _ _ _ _ _ _ _ Hmi Hrun) as Hext.
  pose proof (Hext _ _ Hl) as Hl1.
  pose proof (extends_length _ _ Hext) as Hlen.
  split; [done|]. rewrite Hw'. destruct state_append.
  - apply commit_append_inv in Hcommit as (ls & xs & Hfield & Hls & ->).
    rewrite length_insert. split; [done|]. exists ls, d.
    assert (l ≠ ls) by (intros ->; congruence).
    unfold field in Hfield. rewrite Hl1 in Hfield.
    split_and!; [|done|done|done|].
    + by rewrite list_lookup_insert_ne.
    + intros i Hi Hne. rewrite list_lookup_insert_ne by done.
      by apply extends_lookup_lt.
  - apply commit_replace_inv in Hcommit as (l' & d0 & [= <-] & Hl1' & ->).
    rewrite length_insert. split; [done|].
    assert (d0 = d) as -> by congruence.
    exists l, (<[state_key := result]> d). split_and!.
    + apply list_lookup_insert_eq. by eapply lookup_lt_Some.
    + intros k Hk. by apply lookup_insert_ne.
    + intros _. split; [done|]. rewrite lookup_insert_eq. by eexists.
    + done.
    + intros i Hi Hne. rewrite list_lookup_insert_ne by done.
      by apply extends_lookup_lt.
Qed.

Lemma view_kept (h h' : list cell) l d d' target k v c :
  h !! l = Some (CDict d) → h' !! l = Some (CDict d') →
  d' !! k = d !! k →
  (∀ i, i < length h → i ≠ target → h' !! i = h !! i) →
  view h (VRef l) k = Some (v, Some c) → v ≠ VRef target →
  view h' (VRef l) k = Some (v, Some c).
Proof.
  intros Hl Hl' Hk Hsame. unfold view, field. rewrite Hl, Hl', Hk.
  destruct (d !! k) as [v0|]; [|done]. intros [= -> Hd] Hne.
  destruct v as [| | | |i| |]; try done. simpl in *.
  rewrite Hsame; [by rewrite Hd | by eapply lookup_lt_Some | congruence].
Qed.

(** C4, as the code has it: let [make_inputs] leave the existing objects
    alone and return a new mapping.  A node that returns gives back the
    state record it was given; the record binds every key other than
    [state_key] to what it was bound to; and of the objects that existed
    when the node was entered only one is written, the record itself in
    replace mode and the sequence at [state[state_key]] in append mode.
    So every other field shows what it showed before, unless it refers to
    the written object.  In a run of the graph built by [create_graph],
    with both input-assembly functions of that kind, only the keys
    [subgoals] and [tasks] of the record are rebound and no other object
    is written: [user_queries] and [inputs] show what they showed. *)
Theorem node_frame :
  (∀ llm prompt_text make_inputs parser_output state_key state_append
     node_name printout skip_parser l d w r w',
     heap w !! l = Some (CDict d) →
     assembles_on make_inputs (VRef l) (heap w) →
     make_llm_node llm prompt_text make_inputs parser_output state_key
       state_append node_name printout skip_parser (VRef l) w = (Ok r, w') →
     r = VRef l
     ∧ (∀ k, k ≠ state_key →
             field (heap w') (VRef l) k = field (heap w) (VRef l) k)
     ∧ ∃ target,
         (state_append = false → target = l)
         ∧ (state_append = true → d !! state_key = Some (VRef target))
         ∧ (∀ i, i < length (heap w) → i ≠ target →
                 heap w' !! i = heap w !! i)
         ∧ ∀ k v c, k ≠ state_key →
             view (heap w) (VRef l) k = Some (v, Some c) → v ≠ VRef target →
             view (heap w') (VRef l) k = Some (v, Some c))
  ∧ (∀ cfg w0 g w0' l d w r w',
       assembles make_goal_decomp_node_inputs →
       assembles make_task_decomp_node_inputs →
       create_graph cfg w0 = (Ok g, w0') →
       heap w !! l = Some (CDict d) →
       invoke g (VRef l) w = (Ok r, w') →
       r = VRef l
       ∧ (∀ k, k ≠ "subgoals" → k ≠ "tasks" →
               field (heap w') (VRef l) k = field (heap w) (VRef l) k)
       ∧ is_Some (field (heap w') (VRef l) "subgoals")
       ∧ is_Some (field (heap w') (VRef l) "tasks")
       ∧ (∀ i, i < length (heap w) → i ≠ l → heap w' !! i = heap w !! i)
       ∧ ∀ k v c, k ≠ "subgoals" → k ≠ "tasks" →
           view (heap w) (VRef l) k = Some (v, Some c) → v ≠ VRef l →
           view (heap w') (VRef l) k = Some (v, Some c)).
Proof.
  split.
  - intros * Hl Hmi Hnode.
    destruct (node_writes _ _ _ _ _ _ _ _ _ _ _ _ _ _ Hl Hmi Hnode)
      as (-> & Hlen & target & d' & Hl' & Hkeys & Hrep & Happ & Hsame).
    split; [done|]. split.
    { intros k Hk. unfold field. rewrite Hl, Hl'. by apply Hkeys. }
    exists target. split_and!; [by intros [? _]%Hrep | done | done |].
    intros k v c Hk Hview Hne.
    by apply (view_kept _ _ _ _ _ _ _ _ _ Hl Hl' (Hkeys k Hk) Hsame).
  - intros cfg w0 g w0' l d w r w' Hgoal_mi Htask_mi Hg Hl Hrun.
    apply create_graph_ok_inv in Hg as (gm & tm & -> & ->).
    rewrite invoke_plan in Hrun.
    apply bind_ok_inv in Hrun as (s & w1 & Hgoal & Htask).
    destruct (node_writes _ _ _ _ _ _ _ _ _ _ _ _ _ _ Hl (Hgoal_mi _ _) Hgoal)
      as (-> & Hlen1 & t1 & d1 & Hl1 & Hkeys1 & Hrep1 & _ & Hsame1).
    destruct (Hrep1 eq_refl) as [-> Hsub].
    destruct (node_writes _ _ _ _ _ _ _ _ _ _ _ _ _ _ Hl1 (Htask_mi _ _) Htask)
      as (-> & Hlen2 & t2 & d2 & Hl2 & Hkeys2 & Hrep2 & _ & Hsame2).
    destruct (Hrep2 eq_refl) as [-> Htasks].
    assert (Hkeys : ∀ k, k ≠ "subgoals" → k ≠ "tasks" → d2 !! k = d !! k).
    { intros k Hk1 Hk2. by rewrite Hkeys2, Hkeys1. }
    assert (Hsame : ∀ i, i < length (heap w) → i ≠ l →
                         heap w' !! i = heap w !! i).
    { intros i Hi Hne. rewrite Hsame2 by (done || lia). by apply Hsame1. }
    split_and!; [done| | | |done|].
    + intros k Hk1 Hk2. unfold field. rewrite Hl, Hl2. by apply Hkeys.
    + unfold field. rewrite Hl2, Hkeys2 by done. done.
    + unfold field. by rewrite Hl2.
    + intros k v c Hk1 Hk2 Hview Hne.
      by apply (view_kept _ _ _ _ _ _ _ _ _ Hl Hl2 (Hkeys k Hk1 Hk2) Hsame).
Qed.

End frame.

Lemma node_frame_demo :
  (∃ w', @make_llm_node demo.ext demo.llm "goal prompt" demo.fresh_inputs
           (Some (Schema "GoalDecompNodeParser")) "subgoals" false
           "GOAL_DECOMP_NODE" true false demo.state0 demo.world0
         = (Ok demo.state0, w')
         ∧ view (heap w') demo.state0 "inputs"
           = Some (VRef 1, Some inputs_cell0))
  ∧ (∃ w', @invoke demo_graph demo.state0 demo.world0 = (Ok demo.state0, w')
           ∧ view (heap w') demo.state0 "inputs"
             = Some (VRef 1, Some inputs_cell0)
           ∧ view (heap w') demo.state0 "user_queries"
             = Some (VRef 0, Some (CList [VStr "pick up the red block"]))).
Proof.
  split.
  - assert (Hnode : @make_llm_node demo.ext demo.llm "goal prompt"
                      demo.fresh_inputs (Some (Schema "GoalDecompNodeParser"))
                      "subgoals" false "GOAL_DECOMP_NODE" true false
                      demo.state0 demo.world0
                    = (Ok demo.state0, world_after_goal))
      by (vm_compute; reflexivity).
    exists world_after_goal. split; [exact Hnode|].
    destruct (proj1 (@node_frame demo.ext) demo.llm "goal prompt"
                demo.fresh_inputs (Some (Schema "GoalDecompNodeParser"))
                "subgoals" false "GOAL_DECOMP_NODE" true false 4 demo.record0
                demo.world0 demo.state0 world_after_goal eq_refl
                (fresh_inputs_assembles _ _) Hnode)
      as (_ & _ & target & Hrep & _ & _ & Hview).
    rewrite (Hrep eq_refl) in Hview.
    by apply Hview.
  - assert (Hcreate : @create_graph demo.ext config.config demo.world0
                      = (Ok demo_graph, demo.world0)) by reflexivity.
    assert (Hinvoke : invoke demo_graph demo.state0 demo.world0
                      = (Ok demo.state0, world_after_run))
      by (vm_compute; reflexivity).
    exists world_after_run. split; [exact Hinvoke|].
    destruct (proj2 (@node_frame demo.ext) config.config demo.world0
                demo_graph demo.world0 4 demo.record0 demo.world0 demo.state0
                world_after_run fresh_inputs_assembles fresh_inputs_assembles
                Hcreate eq_refl Hinvoke)
      as (_ & _ & _ & _ & _ & Hview).
    split; by apply Hview.
Defined.

(** C4, as stated, fails: the [make_inputs] of the node below only reads
    the state, handing out the state's own [inputs] mapping, and the call
    succeeds; the format instructions the node writes into that mapping
    change what the field [inputs] shows, although the node's field is
    [subgoals]. *)
Lemma successful_node_changes_inputs :
  reads_only_on demo.shared_inputs demo.state0 demo.heap0
  ∧ ∃ w', @make_llm_node demo.ext demo.llm "goal prompt" demo.shared_inputs
            (Some (Schema "GoalDecompNodeParser")) "subgoals" false
            "GOAL_DECOMP_NODE" true false demo.state0 demo.world0
          = (Ok demo.state0, w')
          ∧ view demo.heap0 demo.state0 "inputs"
            = Some (VRef 1, Some inputs_cell0)
          ∧ view (heap w') demo.state0 "inputs"
            ≠ view demo.heap0 demo.state0 "inputs".
Proof.
  split.
  - intros w r w' Hh Hrun. apply getitem_inv in Hrun as ->. rewrite Hh.
    apply extends_refl.
  - eexists. split_and!; [reflexivity..|].
    intros Heq. apply (f_equal (λ o, match o with
                                     | Some (_, Some (CDict d)) =>
                                         d !! "format_instructions"
                                     | _ => None
                                     end)) in Heq.
    vm_compute in Heq. discriminate.
Qed.

(** ** The initial state *)

Section initial_state.
Context `{Externals}.

Lemma bind_assoc {A B C} (m : M A) (f : A -> M B) (g : B -> M C) w :
  bind (bind m f) g w = bind m (λ a, bind (f a) g) w.
Proof. unfold bind. by destruct (m w) as [[a|e] w1]. Qed.

Lemma bind_ret {A B} (a : A) (k : A -> M B) w : bind (ret a) k w = k a w.
Proof. reflexivity. Qed.

Lemma bind_get_world {B} (k : world -> M B) w : bind get_world k w = k w w.
Proof. reflexivity. Qed.

Lemma bind_emit {B} (e : event) (k : unit -> M B) hp t :
  bind (emit e) k {| heap := hp; trace := t |}
  = k tt {| heap := hp; trace := t ++ [e] |}.
Proof. reflexivity. Qed.

Lemma bind_lift_ok {A B} (o : outcome A) (a : A) (k : A -> M B) w :
  o = Ok a → bind (lift o) k w = k a w.
Proof. by intros ->. Qed.

Lemma lookup_at (h tl : list cell) i : (h ++ tl) !! (length h + i) = tl !! i.
Proof. rewrite lookup_app_r by lia. f_equal. lia. Qed.

Lemma bind_alloc_at {B} (c : cell) (k : value -> M B) h tl t :
  bind (alloc c) k {| heap := h ++ tl; trace := t |}
  = k (VRef (length h + length tl)) {| heap := h ++ (tl ++ [c]); trace := t |}.
Proof.
  unfold bind, alloc. simpl. by rewrite length_app, app_assoc.
Qed.

Lemma bind_setitem_at {B} (k : unit -> M B) h tl t i d key v :
  tl !! i = Some (CDict d) →
  bind (setitem (VRef (length h + i)) key v) k {| heap := h ++ tl; trace := t |}
  = k tt {| heap := h ++ <[i := CDict (<[key := v]> d)]> tl; trace := t |}.
Proof.
  intros Hi. unfold bind, setitem, store. simpl.
  by rewrite lookup_at, Hi, insert_app_r.
Qed.

Lemma deepcopy_S depth l :
  deepcopy (S depth) (VRef l)
  = (let* w := get_world in
     match heap w !! l with
     | Some (CList xs) =>
         let* ys := mapM (deepcopy depth) xs in
         alloc (CList ys)
     | Some (CDict d) =>
         let* kvs := mapM (λ kv, let* v' := deepcopy depth kv.2 in
                                 ret (kv.1, v'))
                          (map_to_list d) in
         alloc (CDict (list_to_map kvs))
     | None => raise TypeError
     end).
Proof. reflexivity. Qed.

(** Copying an empty container allocates one empty container. *)
Lemma bind_deepcopy_empty_list {B} (k : value -> M B) depth h tl t i :
  tl !! i = Some (CList []) →
  bind (deepcopy (S depth) (VRef (length h + i))) k
    {| heap := h ++ tl; trace := t |}
  = k (VRef (length h + length tl))
      {| heap := h ++ (tl ++ [CList []]); trace := t |}.
Proof.
  intros Hi. rewrite deepcopy_S, bind_assoc, bind_get_world.
  cbn [heap]. rewrite lookup_at, Hi. cbn [mapM].
  by rewrite bind_assoc, bind_ret, bind_alloc_at.
Qed.

Lemma bind_deepcopy_empty_dict {B} (k : value -> M B) depth h tl t i :
  tl !! i = Some (CDict ∅) →
  bind (deepcopy (S depth) (VRef (length h + i))) k
    {| heap := h ++ tl; trace := t |}
  = k (VRef (length h + length tl))
      {| heap := h ++ (tl ++ [CDict ∅]); trace := t |}.
Proof.
  intros Hi. rewrite deepcopy_S, bind_assoc, bind_get_world.
  cbn [heap]. rewrite lookup_at, Hi, map_to_list_empty. cbn [mapM].
  by rewrite bind_assoc, bind_ret, bind_alloc_at.
Qed.

Lemma map_to_list_record (a b c d : value) :
  map_to_list (record a b c d)
  = [("subgoals", c); ("user_queries", a); ("inputs", b); ("tasks", d)].
Proof. reflexivity. Qed.

Lemma record_of_list (a b c d : value) :
  list_to_map [("subgoals", c); ("user_queries", a); ("inputs", b); ("tasks", d)]
  = record a b c d.
Proof. reflexivity. Qed.

Lemma network_calls_print hp hp' t msg :
  network_calls {| heap := hp; trace := t ++ [EvPrint msg] |}
  = network_calls {| heap := hp'; trace := t |}.
Proof.
  unfold network_calls. simpl. rewrite filter_app. simpl.
  by rewrite app_nil_r.
Qed.

Lemma bind_http_get {B} url body (k : string -> M B) hp t :
  requests_get url (length (network_calls {| heap := hp; trace := t |}))
    = Ok body →
  bind (http_get url) k {| heap := hp; trace := t |}
  = k body {| heap := hp; trace := t ++ [EvHttpGet url] |}.
Proof. intros Hget. unfold bind, http_get. by rewrite Hget. Qed.

Lemma make_state_run user_query cfg url h t body all objects items :
  requests_get (resolved_url url +:+ "/env")
    (length (network_calls {| heap := h; trace := t |})) = Ok body →
  json_loads body = Ok all →
  data_getitem all "objects" = Ok objects →
  py_iter objects = Ok items →
  make_state user_query cfg url {| heap := h; trace := t |}
  = (Ok (VRef (length h + 9)),
     {| heap := h ++ new_cells (length h) user_query items cfg;
        trace := t ++ new_events (resolved_url url) objects |}).
Proof.
  intros Hget Hjson Hobjects Hiter.
  unfold make_state, _make_base_state. fold (resolved_url url).
  rewrite <- (app_nil_r h) at 1.
  repeat (rewrite ?bind_assoc; rewrite bind_alloc_at; cbn [length app]).
  unfold state.recursion_limit.
  rewrite deepcopy_S, bind_assoc, bind_get_world. cbn [heap].
  rewrite lookup_at. cbn [lookup list_lookup].
  fold (record (VRef (length h + 0)) (VRef (length h + 1))
          (VRef (length h + 2)) (VRef (length h + 3))).
  rewrite map_to_list_record. cbn [mapM fst snd].
  repeat first
    [ rewrite bind_assoc
    | rewrite bind_ret
    | rewrite bind_deepcopy_empty_list by reflexivity; cbn [length app]
    | rewrite bind_deepcopy_empty_dict by reflexivity; cbn [length app]
    | rewrite bind_alloc_at; cbn [length app]
    | erewrite bind_setitem_at by reflexivity; cbn [insert list_insert] ].
  unfold _make_inputs, make_object_text.
  repeat first
    [ rewrite bind_assoc
    | rewrite bind_ret
    | rewrite bind_emit
    | rewrite bind_alloc_at; cbn [length app]
    | erewrite bind_setitem_at by reflexivity; cbn [insert list_insert] ].
  erewrite bind_http_get
    by (erewrite network_calls_print; exact Hget).
  rewrite bind_assoc, (bind_lift_ok _ _ _ _ Hjson).
  rewrite bind_assoc, (bind_lift_ok _ _ _ _ Hobjects).
  rewrite bind_assoc, bind_emit.
  rewrite bind_assoc, (bind_lift_ok _ _ _ _ Hiter).
  repeat first
    [ rewrite bind_assoc
    | rewrite bind_ret
    | rewrite bind_emit
    | erewrite bind_setitem_at by reflexivity; cbn [insert list_insert] ].
  unfold ret, new_cells, new_events, object_text_of.
  rewrite <- !app_assoc. reflexivity.
Qed.

(** C7: when the simulator answers the inventory request with a mapping
    that has a sequence under [objects], [make_state] returns a record that
    did not exist before, without touching any existing object.  The record
    has the four keys of the state; [user_queries] is the one-item sequence
    of the query, [subgoals] and [tasks] are empty sequences, and [inputs]
    is a mapping with exactly the keys [object_text] and [skill_text], the
    former built from the inventory and the latter from the skill
    configuration.  The record and its four containers are new objects,
    all distinct. *)
Theorem make_state_fresh user_query cfg url w body all objects items :
  requests_get (resolved_url url +:+ "/env") (length (network_calls w))
    = Ok body →
  json_loads body = Ok all →
  data_getitem all "objects" = Ok objects →
  py_iter objects = Ok items →
  ∃ l w',
    make_state user_query cfg url w = (Ok (VRef l), w')
    ∧ length (heap w) ≤ l
    ∧ extends (heap w) (heap w')
    ∧ (∃ d, heap w' !! l = Some (CDict d)
            ∧ dom d = {[ "user_queries"; "inputs"; "subgoals"; "tasks" ]})
    ∧ ∃ lq li ls lt,
        view (heap w') (VRef l) "user_queries"
          = Some (VRef lq, Some (CList [VStr user_query]))
        ∧ view (heap w') (VRef l) "subgoals" = Some (VRef ls, Some (CList []))
        ∧ view (heap w') (VRef l) "tasks" = Some (VRef lt, Some (CList []))
        ∧ (∃ d, view (heap w') (VRef l) "inputs" = Some (VRef li, Some (CDict d))
                ∧ dom d = {[ "object_text"; "skill_text" ]}
                ∧ d !! "object_text" = Some (VStr (object_text_of items))
                ∧ d !! "skill_text"
                  = Some (VStr (make_skill_text (skills_ cfg))))
        ∧ NoDup [l; lq; li; ls; lt]
        ∧ Forall (λ i, length (heap w) ≤ i) [lq; li; ls; lt].
Proof.
  destruct w as [h t]. intros Hget Hjson Hobjects Hiter.
  exists (length h + 9). eexists.
  split; [by eapply make_state_run|]. cbn [heap].
  split; [lia|]. split; [intros i c Hi; by apply lookup_app_l_Some|].
  split.
  { eexists. rewrite lookup_at. split; [reflexivity|].
    unfold record. cbn [list_to_map foldr uncurry fst snd].
    rewrite !dom_insert_L, dom_empty_L. set_solver. }
  exists (length h + 10), (length h + 11), (length h + 5), (length h + 8).
  set (cells := new_cells (length h) user_query items cfg).
  assert (Hfield : ∀ k v, (record (VRef (length h + 10)) (VRef (length h + 11))
                             (VRef (length h + 5)) (VRef (length h + 8))) !! k
                          = Some v →
                     field (h ++ cells) (VRef (length h + 9)) k = Some v).
  { intros k v <-. unfold field. by rewrite lookup_at. }
  unfold view.
  rewrite (Hfield "user_queries" _ eq_refl), (Hfield "subgoals" _ eq_refl),
    (Hfield "tasks" _ eq_refl), (Hfield "inputs" _ eq_refl).
  cbn [fst snd]. unfold deref. rewrite !lookup_at.
  split_and!; try reflexivity.
  - eexists. split; [reflexivity|]. split_and!; [|reflexivity..].
    rewrite !dom_insert_L, dom_empty_L. set_solver.
  - repeat (apply NoDup_cons; split;
            [rewrite ?not_elem_of_cons; split_and?; try lia; apply not_elem_of_nil|]).
    apply NoDup_nil_2.
  - repeat (apply Forall_cons; split; [lia|]). apply Forall_nil_2.
Qed.

End initial_state.

Lemma make_state_fresh_demo :
  ∃ l w',
    @make_state demo.ext "pick up the red block" config.config None
      demo.world0 = (Ok (VRef l), w')
    ∧ view (heap w') (VRef l) "user_queries"
      = Some (VRef 15, Some (CList [VStr "pick up the red block"])).
Proof.
  destruct (@make_state_fresh demo.ext "pick up the red block" config.config
              None demo.world0 "body" demo.env_body
              (DList [DStr "red_block"; DStr "table"])
              [DStr "red_block"; DStr "table"] eq_refl eq_refl eq_refl eq_refl)
    as (l & w' & Hrun & _).
  exists l, w'. split; [exact Hrun|].
  assert (Hw : (Ok (VRef l), w')
               = @make_state demo.ext "pick up the red block" config.config
                   None demo.world0) by by rewrite Hrun.
  vm_compute in Hw. by injection Hw as -> ->.
Defined.

(** * Further properties *)

(** ** The inventory text *)

Section object_text.
Context `{Externals}.

Lemma fold_append_cat {A} (f : A -> string) (xs : list A) (acc : string) :
  fold_left (λ total x, total +:+ f x) xs acc = acc +:+ cat (f <$> xs).
Proof.
  revert acc. induction xs as [|x xs IH]; intros acc.
  - cbn [fold_left fmap list_fmap cat fold_right]. by rewrite append_nil_r.
  - rewrite fmap_cons. cbn [fold_left cat fold_right]. rewrite IH.
    unfold cat. by rewrite append_assoc.
Qed.

Lemma object_text_of_lines (items : list data) :
  object_text_of items = "{{" +:+ nl +:+ cat (object_line <$> items) +:+ "}}".
Proof.
  pose proof (fold_append_cat object_line items ("{{" +:+ nl)) as Hfold.
  unfold object_text_of. unfold object_line in Hfold at 1.
  rewrite Hfold. by rewrite !append_assoc.
Qed.

(** X1: [make_object_text] with an answering simulator: one request to
    [{url}/env], the inventory printed, no object of the store touched, and
    the text is [{{], a newline, one line ["object_name": "<name>",] per
    item in order, and [}}]; an empty inventory gives the two braces with
    only the newline between them. *)
Theorem make_object_text_lines url w body all objects items :
  requests_get (url +:+ "/env") (length (network_calls w)) = Ok body →
  json_loads body = Ok all →
  data_getitem all "objects" = Ok objects →
  py_iter objects = Ok items →
  make_object_text url w
  = (Ok ("{{" +:+ nl +:+ cat (object_line <$> items) +:+ "}}"),
     {| heap := heap w;
        trace := trace w ++ [EvHttpGet (url +:+ "/env"); EvPrintData objects] |})
  ∧ (items = [] →
     make_object_text url w
     = (Ok ("{{" +:+ nl +:+ "}}"),
        {| heap := heap w;
           trace := trace w ++ [EvHttpGet (url +:+ "/env");
                                EvPrintData objects] |})).
Proof.
  intros Hget Hjson Hobjects Hiter.
  assert (Hrun : make_object_text url w
                 = (Ok (object_text_of items),
                    {| heap := heap w;
                       trace := trace w ++ [EvHttpGet (url +:+ "/env");
                                            EvPrintData objects] |})).
  { destruct w as [h t]. unfold make_object_text.
    erewrite bind_http_get by exact Hget.
    rewrite (bind_lift_ok _ _ _ _ Hjson), (bind_lift_ok _ _ _ _ Hobjects).
    rewrite bind_emit, (bind_lift_ok _ _ _ _ Hiter).
    unfold ret, object_text_of. cbn [heap trace]. by rewrite <- app_assoc. }
  rewrite Hrun, object_text_of_lines. split; [done|].
  by intros ->.
Qed.

End object_text.

Lemma make_object_text_lines_demo :
  @make_object_text demo.ext "http://sim" demo.world0
  = (Ok ("{{" +:+ nl
         +:+ dq +:+ "object_name" +:+ dq +:+ ": " +:+ dq +:+ "red_block" +:+ dq
         +:+ "," +:+ nl
         +:+ dq +:+ "object_name" +:+ dq +:+ ": " +:+ dq +:+ "table" +:+ dq
         +:+ "," +:+ nl +:+ "}}"),
     {| heap := demo.heap0;
        trace := [EvHttpGet "http://sim/env";
                  EvPrintData (DList [DStr "red_block"; DStr "table"])] |}).
Proof.
  exact (proj1 (@make_object_text_lines demo.ext "http://sim" demo.world0
                  "body" demo.env_body
                  (DList [DStr "red_block"; DStr "table"])
                  [DStr "red_block"; DStr "table"]
                  eq_refl eq_refl eq_refl eq_refl)).
Defined.

Section object_text_errors.
Context `{Externals}.

(** X2: [make_object_text] when something goes wrong: a failing request, a body
    that is no JSON, a decoded body without the key [objects] (a
    [KeyError]) or that is no mapping (a [TypeError]), an [objects] entry
    that cannot be iterated.  Each error reaches the caller; the request
    has been made once in every case, nothing was printed unless the
    inventory was found, and no object of the store is touched. *)
Theorem make_object_text_errors url w :
  (∀ e, requests_get (url +:+ "/env") (length (network_calls w)) = Raise e →
        make_object_text url w = (Raise e, requested (url +:+ "/env") w))
  ∧ (∀ body e,
       requests_get (url +:+ "/env") (length (network_calls w)) = Ok body →
       json_loads body = Raise e →
       make_object_text url w = (Raise e, requested (url +:+ "/env") w))
  ∧ (∀ body kvs,
       requests_get (url +:+ "/env") (length (network_calls w)) = Ok body →
       json_loads body = Ok (DDict kvs) →
       assoc "objects" kvs = None →
       make_object_text url w
       = (Raise (KeyError "objects"), requested (url +:+ "/env") w))
  ∧ (∀ body all,
       requests_get (url +:+ "/env") (length (network_calls w)) = Ok body →
       json_loads body = Ok all →
       (∀ kvs, all ≠ DDict kvs) →
       make_object_text url w
       = (Raise TypeError, requested (url +:+ "/env") w))
  ∧ (∀ body all objects e,
       requests_get (url +:+ "/env") (length (network_calls w)) = Ok body →
       json_loads body = Ok all →
       data_getitem all "objects" = Ok objects →
       py_iter objects = Raise e →
       make_object_text url w
       = (Raise e,
          {| heap := heap w;
             trace := trace w ++ [EvHttpGet (url +:+ "/env");
                                  EvPrintData objects] |})).
Proof.
  destruct w as [h t]. unfold requested. cbn [heap trace].
  split_and!.
  - intros e Hget. unfold make_object_text, bind, http_get. by rewrite Hget.
  - intros body e Hget Hjson. unfold make_object_text.
    erewrite bind_http_get by exact Hget. unfold bind, lift. by rewrite Hjson.
  - intros body kvs Hget Hjson Hkey. unfold make_object_text.
    erewrite bind_http_get by exact Hget.
    rewrite (bind_lift_ok _ _ _ _ Hjson). unfold bind, lift, data_getitem.
    by rewrite Hkey.
  - intros body all Hget Hjson Hnot. unfold make_object_text.
    erewrite bind_http_get by exact Hget.
    rewrite (bind_lift_ok _ _ _ _ Hjson). unfold bind, lift.
    destruct all as [| | | | |kvs]; try done. by destruct (Hnot kvs).
  - intros body all objects e Hget Hjson Hobjects Hiter.
    unfold make_object_text.
    erewrite bind_http_get by exact Hget.
    rewrite (bind_lift_ok _ _ _ _ Hjson), (bind_lift_ok _ _ _ _ Hobjects).
    rewrite bind_emit. unfold bind, lift. rewrite Hiter.
    by rewrite <- app_assoc.
Qed.

End object_text_errors.

Lemma make_object_text_errors_demo :
  @make_object_text (ext_with (Ok "body") (Ok (DDict [("robots", DList [])])))
    "http://sim" demo.world0
  = (Raise (KeyError "objects"), requested "http://sim/env" demo.world0)
  ∧ @make_object_text (ext_with (Raise (Exception "ConnectionError" "refused"))
                         (Ok DNull))
      "http://sim" demo.world0
    = (Raise (Exception "ConnectionError" "refused"),
       requested "http://sim/env" demo.world0).
Proof.
  split.
  - exact (proj1 (proj2 (proj2
             (@make_object_text_errors
                (ext_with (Ok "body") (Ok (DDict [("robots", DList [])])))
                "http://sim" demo.world0)))
             "body" [("robots", DList [])] eq_refl eq_refl eq_refl).
  - exact (proj1 (@make_object_text_errors
                    (ext_with (Raise (Exception "ConnectionError" "refused"))
                       (Ok DNull))
                    "http://sim" demo.world0)
             (Exception "ConnectionError" "refused") eq_refl).
Defined.

(** ** The skill text at the edges *)

(** X3: [make_skill_text] on nothing and on little: no robot gives the empty
    text; a robot without skills gives the bare prefix (the final skill is
    only looked up inside the loop, so the empty list is no error); a robot
    with one skill gives the prefix and the skill; and the text of a list
    of robots is the first robot's line, a newline and the text of the
    others. *)
Theorem make_skill_text_edges :
  make_skill_text [] = EmptyString
  ∧ (∀ n, make_skill_text [ {| name := n; skills := [] |} ]
          = "from " +:+ n +:+ ".skills import ")
  ∧ (∀ n s, make_skill_text [ {| name := n; skills := [s] |} ]
            = "from " +:+ n +:+ ".skills import " +:+ s)
  ∧ (∀ r r' rest,
       make_skill_text (r :: r' :: rest)
       = skill_line r +:+ nl +:+ make_skill_text (r' :: rest)).
Proof.
  split_and!; [done|done| |done].
  intros n s. unfold make_skill_text, skill_line, last_skill. cbn.
  rewrite String.eqb_refl. cbn. by rewrite !append_assoc.
Qed.

(** ** The initial state: failures and sharing *)

Section initial_state_more.
Context `{Externals}.

Lemma network_calls_requested url w :
  network_calls (requested url w) = network_calls w ++ [EvHttpGet url].
Proof. unfold network_calls, requested. simpl. by rewrite filter_app. Qed.

(** X4: [make_state] when the simulator cannot be reached: the error of the
    request is the outcome, the request to [{url}/env] is the only traffic,
    and the objects that existed before the call are unchanged.  Without a
    url, or with the empty string, the request goes to
    [http://127.0.0.1:8800]; any other url is used as given. *)
Theorem make_state_unreachable user_query cfg url w e :
  requests_get (resolved_url url +:+ "/env") (length (network_calls w))
    = Raise e →
  (∃ w', make_state user_query cfg url w = (Raise e, w')
         ∧ extends (heap w) (heap w')
         ∧ network_calls w'
           = network_calls w ++ [EvHttpGet (resolved_url url +:+ "/env")])
  ∧ resolved_url None = "http://127.0.0.1:8800"
  ∧ resolved_url (Some EmptyString) = "http://127.0.0.1:8800"
  ∧ ∀ c rest, resolved_url (Some (String c rest)) = String c rest.
Proof.
  intros Hget. split; [|done].
  destruct w as [h t]. cbn [heap].
  erewrite <- network_calls_print in Hget.
  eexists. split.
  { unfold make_state, _make_base_state. fold (resolved_url url).
    rewrite <- (app_nil_r h) at 1.
  repeat (rewrite ?bind_assoc; rewrite bind_alloc_at; cbn [length app]).
  unfold state.recursion_limit.
  rewrite deepcopy_S, bind_assoc, bind_get_world. cbn [heap].
  rewrite lookup_at. cbn [lookup list_lookup].
  fold (record (VRef (length h + 0)) (VRef (length h + 1))
          (VRef (length h + 2)) (VRef (length h + 3))).
  rewrite map_to_list_record. cbn [mapM fst snd].
  repeat first
    [ rewrite bind_assoc
    | rewrite bind_ret
    | rewrite bind_deepcopy_empty_list by reflexivity; cbn [length app]
    | rewrite bind_deepcopy_empty_dict by reflexivity; cbn [length app]
    | rewrite bind_alloc_at; cbn [length app]
    | erewrite bind_setitem_at by reflexivity; cbn [insert list_insert] ].
  unfold _make_inputs, make_object_text.
  repeat first
    [ rewrite bind_assoc
    | rewrite bind_ret
    | rewrite bind_emit
    | rewrite bind_alloc_at; cbn [length app]
    | erewrite bind_setitem_at by reflexivity; cbn [insert list_insert] ].
  unfold bind at 1. unfold http_get at 1. cbn [heap trace].
  rewrite Hget. reflexivity. }
  cbn [heap trace]. split.
  - intros i c Hi. by apply lookup_app_l_Some.
  - unfold network_calls. cbn [trace]. rewrite !filter_app. cbn.
    by rewrite app_nil_r.
Qed.

(** Every field of the record built from a store of [n] objects refers to
    one of the objects added to it. *)
Lemma new_state_fields n user_query items cfg (h : list cell) k v :
  length h = n →
  field (h ++ new_cells n user_query items cfg) (VRef (n + 9)) k = Some v →
  ∃ i, v = VRef i ∧ n ≤ i < n + 12.
Proof.
  intros <-. unfold field. rewrite lookup_at. cbn [new_cells lookup list_lookup].
  unfold record. cbn [list_to_map foldr uncurry fst snd].
  rewrite !lookup_insert_Some, lookup_empty.
  intros Hk. repeat (destruct Hk as [[_ <-]|[_ Hk]]; [eexists; split; [done|lia]|]).
  done.
Qed.

(** X5: Two states made one after the other share nothing: the second record is
    another object than the first, what the first call built is unchanged
    by the second, and no field of the second refers to an object a field
    of the first refers to. *)
Theorem make_state_twice_disjoint q1 q2 cfg1 cfg2 url1 url2 w
    body1 all1 objects1 items1 body2 all2 objects2 items2 :
  requests_get (resolved_url url1 +:+ "/env") (length (network_calls w))
    = Ok body1 →
  json_loads body1 = Ok all1 →
  data_getitem all1 "objects" = Ok objects1 →
  py_iter objects1 = Ok items1 →
  requests_get (resolved_url url2 +:+ "/env") (S (length (network_calls w)))
    = Ok body2 →
  json_loads body2 = Ok all2 →
  data_getitem all2 "objects" = Ok objects2 →
  py_iter objects2 = Ok items2 →
  ∃ l1 w1 l2 w2,
    make_state q1 cfg1 url1 w = (Ok (VRef l1), w1)
    ∧ make_state q2 cfg2 url2 w1 = (Ok (VRef l2), w2)
    ∧ l1 ≠ l2
    ∧ extends (heap w1) (heap w2)
    ∧ ∀ k1 k2 v1 v2,
        field (heap w2) (VRef l1) k1 = Some v1 →
        field (heap w2) (VRef l2) k2 = Some v2 →
        v1 ≠ v2.
Proof.
  destruct w as [h t]. intros Hget1 Hjson1 Hobj1 Hiter1 Hget2 Hjson2 Hobj2 Hiter2.
  pose proof (make_state_run q1 cfg1 url1 h t _ _ _ _ Hget1 Hjson1 Hobj1 Hiter1)
    as Hrun1.
  set (h1 := h ++ new_cells (length h) q1 items1 cfg1) in *.
  set (t1 := t ++ new_events (resolved_url url1) objects1) in *.
  assert (Hcalls : length (network_calls {| heap := h1; trace := t1 |})
                   = S (length (network_calls {| heap := h; trace := t |}))).
  { unfold network_calls, t1. cbn [trace]. rewrite filter_app, length_app.
    replace (length (filter is_network
                       (new_events (resolved_url url1) objects1)))
      with 1 by reflexivity.
    lia. }
  rewrite <- Hcalls in Hget2.
  pose proof (make_state_run q2 cfg2 url2 h1 t1 _ _ _ _ Hget2 Hjson2 Hobj2 Hiter2)
    as Hrun2.
  assert (Hlen : length h1 = length h + 12).
  { unfold h1. rewrite length_app. reflexivity. }
  eexists _, _, _, _. split; [exact Hrun1|]. split; [exact Hrun2|].
  cbn [heap]. split_and!.
  - intros [= Heq]. lia.
  - intros i c Hi. by apply lookup_app_l_Some.
  - intros k1 k2 v1 v2 Hf1 Hf2.
    apply new_state_fields in Hf2 as (i2 & -> & Hi2); [|done].
    assert (Hf1' : field h1 (VRef (length h + 9)) k1 = Some v1).
    { unfold field in Hf1 |- *.
      rewrite lookup_app_l in Hf1 by lia. exact Hf1. }
    apply new_state_fields in Hf1' as (i1 & -> & Hi1); [|done].
    intros [= Heq]. lia.
Qed.

End initial_state_more.

Lemma make_state_unreachable_demo :
  ∃ w', @make_state
          (ext_with (Raise (Exception "ConnectionError" "refused")) (Ok DNull))
          "pick up the red block" config.config None demo.world0
        = (Raise (Exception "ConnectionError" "refused"), w')
        ∧ extends demo.heap0 (heap w')
        ∧ network_calls w' = [EvHttpGet "http://127.0.0.1:8800/env"].
Proof.
  exact (proj1 (@make_state_unreachable
                  (ext_with (Raise (Exception "ConnectionError" "refused"))
                     (Ok DNull))
                  "pick up the red block" config.config None demo.world0
                  (Exception "ConnectionError" "refused") eq_refl)).
Defined.

Lemma make_state_twice_disjoint_demo :
  ∃ l1 w1 l2 w2,
    @make_state demo.ext "pick up the red block" config.config None
      demo.world0 = (Ok (VRef l1), w1)
    ∧ @make_state demo.ext "put it on the table" config.config
        (Some "http://sim") w1 = (Ok (VRef l2), w2)
    ∧ l1 ≠ l2.
Proof.
  destruct (@make_state_twice_disjoint demo.ext "pick up the red block"
              "put it on the table" config.config config.config None
              (Some "http://sim") demo.world0
              "body" demo.env_body (DList [DStr "red_block"; DStr "table"])
              [DStr "red_block"; DStr "table"]
              "body" demo.env_body (DList [DStr "red_block"; DStr "table"])
              [DStr "red_block"; DStr "table"]
              eq_refl eq_refl eq_refl eq_refl eq_refl eq_refl eq_refl eq_refl)
    as (l1 & w1 & l2 & w2 & Hrun1 & Hrun2 & Hne & _).
  exists l1, w1, l2, w2. split_and!; [exact Hrun1 | exact Hrun2 | exact Hne].
Defined.

(** ** The client's keyword arguments *)

(** X6: [create_llm] always passes the member's value as [model]; it passes
    [temperature] whenever one is given, zero included, since the test is
    on [None] and not on truthiness; and it passes nothing besides
    [model], [temperature] and [extra_body]. *)
Theorem create_llm_kwargs (model : ModelNames) (temperature : option Q)
    (prompt_cache_key : option string) :
  llm_kwargs (create_llm model temperature prompt_cache_key) !! "model"
  = Some (KStr (_value_ model))
  ∧ llm_kwargs (create_llm model temperature prompt_cache_key) !! "temperature"
    = KFloat <$> temperature
  ∧ llm_kwargs (create_llm model (Some 0%Q) prompt_cache_key) !! "temperature"
    = Some (KFloat 0%Q)
  ∧ ∀ k, k ≠ "model" → k ≠ "temperature" → k ≠ "extra_body" →
         llm_kwargs (create_llm model temperature prompt_cache_key) !! k = None.
Proof.
  assert (Hany : ∀ t,
    llm_kwargs (create_llm model t prompt_cache_key) !! "model"
    = Some (KStr (_value_ model))
    ∧ llm_kwargs (create_llm model t prompt_cache_key) !! "temperature"
      = KFloat <$> t
    ∧ ∀ k, k ≠ "model" → k ≠ "temperature" → k ≠ "extra_body" →
           llm_kwargs (create_llm model t prompt_cache_key) !! k = None).
  { intros t. unfold create_llm.
    destruct (truthy_opt prompt_cache_key); [rewrite dict_truthy_singleton|];
      destruct t; cbn [llm_kwargs fmap option_fmap option_map];
      split_and!; try (intros k ? ? ?); by simplify_map_eq. }
  destruct (Hany temperature) as (Hm & Ht & Hk).
  destruct (Hany (Some 0%Q)) as (_ & Ht0 & _). by split_and!.
Qed.

(** ** Resolution is stable *)

Section resolution_stable.
Context `{Externals}.

Lemma by_value_stable (v : string) (m : ModelNames) :
  ModelNames_by_value v = Ok m → ModelNames_by_value (_value_ m) = Ok m.
Proof.
  unfold ModelNames_by_value.
  destruct (List.find _ _) as [p|] eqn:Hfind; [|discriminate].
  intros [= <-]. cbn [_value_].
  pose proof (find_some _ _ Hfind) as [_ Heq].
  apply String.eqb_eq in Heq. subst v. by rewrite Hfind.
Qed.

(** X7: A member is returned as it is.  Whatever an identifier resolves to, by
    value or by name, the value of that member resolves to the same member
    again: feeding the resolved model's value back is harmless. *)
Theorem resolve_model_enum_stable (s : string) (m : ModelNames) :
  _resolve_model_enum (inr s) = Ok m →
  _resolve_model_enum (inr (_value_ m)) = Ok m
  ∧ _resolve_model_enum (inl m) = Ok m.
Proof.
  intros Hres. split; [|done].
  assert (Hv : ∃ v, ModelNames_by_value v = Ok m).
  { unfold _resolve_model_enum in Hres.
    destruct (ModelNames_by_value s) as [m0|e] eqn:Hvalue.
    - exists s. congruence.
    - destruct e; try discriminate. unfold ModelNames_by_name in Hres.
      destruct (List.find _ _) as [p|]; [|discriminate]. by exists p.2. }
  destruct Hv as [v Hv]. unfold _resolve_model_enum.
  by rewrite (by_value_stable v m Hv).
Qed.

End resolution_stable.

Lemma resolve_model_enum_stable_demo :
  @_resolve_model_enum demo.ext (inr "gpt-4.1-mini") = Ok demo_model.
Proof.
  exact (proj1 (@resolve_model_enum_stable demo.ext "gpt41mini" demo_model
                  eq_refl)).
Defined.

(** ** Nodes: failing merges, events, and where a failure happens *)

Section node_more.
Context `{Externals}.

(** X8: Append mode needs a sequence under [state_key].  Once the chain has
    returned its result: if the state record has no such key the node
    raises [KeyError], and if the key is bound to anything but a list of
    the store it raises [AttributeError].  In both cases the model has
    already been called, its result is dropped, and the world is left as it
    was when the chain returned. *)
Theorem append_needs_sequence llm prompt_text make_inputs parser_output
    state_key node_name printout skip_parser l d w result w1 :
  run_chain llm prompt_text make_inputs
    (build_parser parser_output skip_parser).1
    (build_parser parser_output skip_parser).2 node_name (VRef l) w
  = (Ok result, w1) →
  heap w1 !! l = Some (CDict d) →
  (d !! state_key = None →
   make_llm_node llm prompt_text make_inputs parser_output state_key true
     node_name printout skip_parser (VRef l) w
   = (Raise (KeyError state_key), w1))
  ∧ (∀ v, d !! state_key = Some v →
          (∀ ls xs, v = VRef ls → heap w1 !! ls ≠ Some (CList xs)) →
          make_llm_node llm prompt_text make_inputs parser_output state_key
            true node_name printout skip_parser (VRef l) w
          = (Raise AttributeError, w1)).
Proof.
  intros Hrun Hl. split.
  - intros Hkey. unfold make_llm_node. rewrite (bind_ok _ _ _ _ _ Hrun).
    unfold commit, bind, getitem. by rewrite Hl, Hkey.
  - intros v Hkey Hnot. unfold make_llm_node. rewrite (bind_ok _ _ _ _ _ Hrun).
    unfold commit, bind, getitem. rewrite Hl, Hkey. unfold append.
    destruct v as [| | | |ls| |]; try done.
    destruct (heap w1 !! ls) as [[dd|xs]|] eqn:Hls; try done.
    by destruct (Hnot ls xs eq_refl).
Qed.






(** The chain on a mapping whose prompt renders: one call of the model,
    then the parser. *)
Lemma chain_invoke_rendered prompt_text llm parser inputs w d text :
  deref (heap w) inputs = Some (CDict d) →
  prompt_format prompt_text (heap w) d = Ok text →
  chain_invoke prompt_text llm parser inputs w
  = match chat_completion llm (length (network_calls w)) text with
    | Raise e => (Raise e, called llm text w)
    | Ok message =>
        match parser with
        | None => (Ok (VMsg message), called llm text w)
        | Some StrOutputParser => (Ok (VStr message), called llm text w)
        | Some (PydanticOutputParser sch) =>
            match pydantic_parse sch message with
            | Ok fields => (Ok (VModel fields), called llm text w)
            | Raise e => (Raise e, called llm text w)
            end
        end
    end.
Proof.
  intros Hd Htext. unfold chain_invoke, bind, get_world, lift, chat, ret, called.
  rewrite Hd, Htext.
  destruct (chat_completion _ _ _) as [message|e]; [|done].
  by destruct parser as [[sch|]|].
Qed.




(** X11: With [skip_parser] set a schema changes nothing: no format
    instructions are written into the inputs, the answer is not parsed and
    not dumped, and the result of the chain is the model's raw message. *)
Theorem skip_parser_ignores_schema llm prompt_text make_inputs parser_output
    node_name state w inputs w1 d text message :
  make_inputs state (logged node_name w) = (Ok inputs, w1) →
  deref (heap w1) inputs = Some (CDict d) →
  prompt_format prompt_text (heap w1) d = Ok text →
  chat_completion llm (length (network_calls w1)) text = Ok message →
  run_chain llm prompt_text make_inputs
    (build_parser parser_output true).1 (build_parser parser_output true).2
    node_name state w
  = (Ok (VMsg message), called llm text w1).
Proof.
  intros Hin Hd Hfmt Hchat. unfold run_chain.
  unfold bind at 1. unfold emit at 1. fold (logged node_name w).
  rewrite (bind_ok _ _ _ _ _ Hin). cbn [build_parser negb fst snd].
  unfold inject. cbn [truthy]. rewrite bind_ret.
  unfold bind.
  by rewrite (chain_invoke_rendered _ _ _ _ _ _ _ Hd Hfmt), Hchat.
Qed.

End node_more.

Lemma append_needs_sequence_demo :
  @make_llm_node demo.ext demo.llm "prompt" demo.fresh_inputs None "history"
    true "NOTE" true false demo.state0 demo.world0
  = (Raise (KeyError "history"), world_after_plain_call).
Proof.
  exact (proj1 (@append_needs_sequence demo.ext demo.llm "prompt"
                  demo.fresh_inputs None "history" "NOTE" true false 4
                  demo.record0 demo.world0 (VStr "answer")
                  world_after_plain_call eq_refl eq_refl) eq_refl).
Defined.




Lemma skip_parser_ignores_schema_demo :
  @run_chain demo.ext demo.llm "goal prompt" demo.fresh_inputs
    (@build_parser demo.ext (Some (Schema "GoalDecompNodeParser")) true).1
    (@build_parser demo.ext (Some (Schema "GoalDecompNodeParser")) true).2
    "GOAL_DECOMP_NODE" demo.state0 demo.world0
  = (Ok (VMsg "answer"),
     called demo.llm "goal prompt" (world_with_inputs "GOAL_DECOMP_NODE")).
Proof.
  exact (@skip_parser_ignores_schema demo.ext demo.llm "goal prompt"
           demo.fresh_inputs (Some (Schema "GoalDecompNodeParser"))
           "GOAL_DECOMP_NODE" demo.state0 demo.world0 (VRef 5)
           (world_with_inputs "GOAL_DECOMP_NODE") inputs_of_state0
           "goal prompt" "answer" eq_refl eq_refl eq_refl eq_refl).
Defined.

(** ** Configuration: what validates *)

Lemma all_ok_fmap {A B} (f : A -> outcome B) (g : B -> A) (xs : list B) :
  (∀ x, f (g x) = Ok x) → all_ok f (g <$> xs) = Ok xs.
Proof.
  intros Hfg. induction xs as [|x xs IH]; [done|].
  rewrite fmap_cons. cbn [all_ok obind]. rewrite Hfg. cbn [obind].
  by rewrite IH.
Qed.

(** X12: Strictness refuses nothing that is well formed: the mapping that holds
    exactly the declared fields of a configuration, at every level,
    validates to that configuration. *)
Theorem validate_dump (c : Config) :
  validate_Config (dump_Config c) = Ok c
  ∧ (∀ p, validate_PathsConfig (dump_PathsConfig p) = Ok p)
  ∧ (∀ n, validate_NodeConfig (dump_NodeConfig n) = Ok n)
  ∧ (∀ r, validate_RunnerConfig (dump_RunnerConfig r) = Ok r)
  ∧ (∀ r, validate_RobotSkillConfig (dump_RobotSkillConfig r) = Ok r).
Proof.
  assert (Hpaths : ∀ p, validate_PathsConfig (dump_PathsConfig p) = Ok p)
    by by intros [].
  assert (Hnode : ∀ n, validate_NodeConfig (dump_NodeConfig n) = Ok n)
    by by intros [m [k|]].
  assert (Hrunner : ∀ r, validate_RunnerConfig (dump_RunnerConfig r) = Ok r).
  { intros [g t]. unfold validate_RunnerConfig, dump_RunnerConfig.
    cbn -[validate_NodeConfig dump_NodeConfig]. by rewrite !Hnode. }
  assert (Hrobot : ∀ r, validate_RobotSkillConfig (dump_RobotSkillConfig r)
                        = Ok r).
  { intros [n ss]. unfold validate_RobotSkillConfig, dump_RobotSkillConfig.
    cbn -[all_ok]. by rewrite (all_ok_fmap (as_str "skills") DStr). }
  split_and!; try done.
  destruct c as [p r ss]. unfold validate_Config, dump_Config.
  cbn -[validate_PathsConfig dump_PathsConfig validate_RunnerConfig
        dump_RunnerConfig all_ok validate_RobotSkillConfig
        dump_RobotSkillConfig].
  rewrite Hpaths, Hrunner. cbn [obind].
  by rewrite (all_ok_fmap validate_RobotSkillConfig dump_RobotSkillConfig).
Qed.

Lemma check_extra_declared (declared : list string)
    (kvs : list (string * data)) :
  (∀ k, k ∈ kvs.*1 → k ∈ declared) →
  check_extra forbid declared kvs = Ok tt.
Proof.
  intros Hall. unfold check_extra.
  destruct (undeclared declared kvs) as [|k rest] eqn:Hund; [done|].
  exfalso. assert (Hin : k ∈ undeclared declared kvs)
    by (rewrite Hund; apply elem_of_cons; by left).
  unfold undeclared in Hin. apply list_elem_of_filter in Hin as [Hneg Hk].
  apply Is_true_true, negb_true_iff in Hneg.
  apply Hall, list_elem_of_In in Hk.
  assert (Hex : existsb (String.eqb k) declared = true).
  { apply existsb_exists. exists k. split; [done|apply String.eqb_refl]. }
  congruence.
Qed.

(** X13: [NodeConfig] on any mapping with declared keys only: without
    [model_name], or with a [model_name] that is no string, validation
    fails on [model_name]; with a string [model_name], a
    [prompt_cache_key] that is left out or null gives [None], a string
    gives that string, and anything else fails on [prompt_cache_key].
    Whatever is no mapping is refused. *)
Theorem validate_NodeConfig_fields (kvs : list (string * data)) :
  (∀ k, k ∈ kvs.*1 → k ∈ ["model_name"; "prompt_cache_key"]) →
  (assoc "model_name" kvs = None →
   validate_NodeConfig (DDict kvs) = Raise (ValidationError "model_name"))
  ∧ (∀ d, assoc "model_name" kvs = Some d → (∀ s, d ≠ DStr s) →
          validate_NodeConfig (DDict kvs)
          = Raise (ValidationError "model_name"))
  ∧ (∀ m, assoc "model_name" kvs = Some (DStr m) →
       (assoc "prompt_cache_key" kvs = None
        ∨ assoc "prompt_cache_key" kvs = Some DNull →
        validate_NodeConfig (DDict kvs)
        = Ok {| model_name := m; prompt_cache_key := None |})
       ∧ (∀ key, assoc "prompt_cache_key" kvs = Some (DStr key) →
            validate_NodeConfig (DDict kvs)
            = Ok {| model_name := m; prompt_cache_key := Some key |})
       ∧ (∀ d, assoc "prompt_cache_key" kvs = Some d → d ≠ DNull →
               (∀ s, d ≠ DStr s) →
               validate_NodeConfig (DDict kvs)
               = Raise (ValidationError "prompt_cache_key")))
  ∧ (∀ d, (∀ kvs', d ≠ DDict kvs') →
          validate_NodeConfig d = Raise (ValidationError EmptyString)).
Proof.
  intros Hdeclared.
  pose proof (check_extra_declared _ kvs Hdeclared) as Hextra.
  split_and!.
  - intros Hname. unfold validate_NodeConfig, mapping, required.
    cbn [obind]. rewrite Hextra. cbn [obind]. by rewrite Hname.
  - intros d Hname Hnot. unfold validate_NodeConfig, mapping, required.
    cbn [obind]. rewrite Hextra. cbn [obind]. rewrite Hname. cbn [obind].
    destruct d as [| | |s| |]; try done. by destruct (Hnot s).
  - intros m Hname.
    assert (Hrun : validate_NodeConfig (DDict kvs)
                   = match assoc "prompt_cache_key" kvs with
                     | None | Some DNull =>
                         Ok {| model_name := m; prompt_cache_key := None |}
                     | Some (DStr s) =>
                         Ok {| model_name := m; prompt_cache_key := Some s |}
                     | Some _ => Raise (ValidationError "prompt_cache_key")
                     end).
    { unfold validate_NodeConfig, mapping, required.
      cbn [obind]. rewrite Hextra. cbn [obind]. rewrite Hname. cbn [obind as_str].
      by destruct (assoc "prompt_cache_key" kvs) as [[| | | | |]|]. }
    rewrite Hrun. split_and!.
    + by intros [-> | ->].
    + by intros key ->.
    + intros d -> Hnull Hnot. destruct d as [| | |s| |]; try done.
      by destruct (Hnot s).
  - intros d Hnot. destruct d as [| | | | |kvs']; try done.
    by destruct (Hnot kvs').
Qed.

Lemma validate_NodeConfig_fields_demo :
  validate_NodeConfig node_data
  = Ok {| model_name := "gpt41mini"; prompt_cache_key := None |}
  ∧ validate_NodeConfig (DDict [("model_name", DStr "gpt41mini");
                               ("prompt_cache_key", DNum 7)])
    = Raise (ValidationError "prompt_cache_key").
Proof.
  assert (Hone : ∀ k, k ∈ [("model_name", DStr "gpt41mini")].*1 →
                      k ∈ ["model_name"; "prompt_cache_key"]).
  { intros k Hk. apply list_elem_of_In in Hk. simpl in Hk.
    destruct Hk as [<-|[]]. apply elem_of_cons. by left. }
  assert (Htwo : ∀ k, k ∈ [("model_name", DStr "gpt41mini");
                           ("prompt_cache_key", DNum 7)].*1 →
                      k ∈ ["model_name"; "prompt_cache_key"]).
  { intros k Hk. apply list_elem_of_In in Hk. simpl in Hk.
    destruct Hk as [<-|[<-|[]]]; apply list_elem_of_In; simpl; tauto. }
  split.
  - apply (proj1 (proj1 (proj2 (proj2
             (validate_NodeConfig_fields [("model_name", DStr "gpt41mini")]
                Hone)))
             "gpt41mini" eq_refl)).
    by left.
  - apply (proj2 (proj2 (proj1 (proj2 (proj2
             (validate_NodeConfig_fields
                [("model_name", DStr "gpt41mini");
                 ("prompt_cache_key", DNum 7)]
                Htwo)))
             "gpt41mini" eq_refl)) (DNum 7) eq_refl);
      [discriminate | intros s; discriminate].
Defined.

Lemma strict_classes_reject_demo :
  ∃ k', validate_NodeConfig node_with_extra_field = Raise (ValidationError k').
Proof.
  apply (proj1 (proj2 (strict_classes_reject
                         [("model_name", DStr "gpt41mini");
                          ("firmware", DStr "v2")] "firmware"
                         ltac:(compute_done))));
    compute_done.
Defined.

(** ** The clients of the two nodes *)

Section graph_clients.
Context `{Externals}.

(** X15: In the graph [create_graph] returns, each node has the client of its
    own configuration entry: the goal node's client carries the value of
    the member the goal entry's [model_name] resolves to and the goal
    entry's cache key, and likewise for the task node.  No temperature is
    ever set. *)
Theorem create_graph_clients cfg w g w' :
  create_graph cfg w = (Ok g, w') →
  ∃ goal_model task_model,
    _resolve_model_enum (inr (model_name (goal_decomp_node (runner cfg))))
      = Ok goal_model
    ∧ _resolve_model_enum (inr (model_name (task_decomp_node (runner cfg))))
        = Ok task_model
    ∧ nodes g
      = [("goal_decomp",
          goal_node (create_llm goal_model None
                       (prompt_cache_key (goal_decomp_node (runner cfg)))));
         ("task_decomp",
          task_node (create_llm task_model None
                       (prompt_cache_key (task_decomp_node (runner cfg)))))]
    ∧ (∀ model key,
         llm_kwargs (create_llm model None key) !! "model"
           = Some (KStr (_value_ model))
         ∧ llm_kwargs (create_llm model None key) !! "temperature" = None
         ∧ llm_kwargs (create_llm model None key) !! "extra_body"
           = (if truthy_opt key
              then Some (KDict {[ "prompt_cache_key" := default EmptyString key ]})
              else None)).
Proof.
  unfold create_graph, bind, lift.
  destruct (_resolve_model_enum (inr (model_name (goal_decomp_node _))))
    as [goal_model|]; [|discriminate].
  destruct (_resolve_model_enum (inr (model_name (task_decomp_node _))))
    as [task_model|]; [|discriminate].
  intros [= <- <-]. exists goal_model, task_model.
  split_and!; [done..|].
  intros model key. unfold create_llm.
  destruct (truthy_opt key); [rewrite dict_truthy_singleton|];
    cbn [llm_kwargs]; split_and!; by simplify_map_eq.
Qed.

End graph_clients.

Lemma create_graph_clients_demo :
  ∃ goal_model task_model,
    nodes demo_graph
    = [("goal_decomp",
        @goal_node demo.ext (create_llm goal_model None (Some "goal_decomp_node")));
       ("task_decomp",
        @task_node demo.ext (create_llm task_model None (Some "task_decomp_node")))].
Proof.
  destruct (@create_graph_clients demo.ext config.config demo.world0 demo_graph
              demo.world0 eq_refl)
    as (goal_model & task_model & _ & _ & Hnodes & _).
  exists goal_model, task_model. exact Hnodes.
Defined.

Lemma create_llm_kwargs_demo :
  llm_kwargs (create_llm demo_model (Some 0%Q) (Some "goal_decomp_node"))
    !! "timeout" = None.
Proof.
  apply (proj2 (proj2 (proj2 (create_llm_kwargs demo_model (Some 0%Q)
                                (Some "goal_decomp_node")))));
    discriminate.
Defined.
